(** * AvatarScene: the scene controller of app/lib/avatar-scene-template.cpp

    A shallow embedding of the eight entry points the host binds to
    ([initScene], [loadAvatarModel], [setAnimationState], [updateFrame],
    [setCanvasSize], [getAnimationState], [getFrameRate], [cleanup]) over
    the global [g_scene], followed by the properties of the controller.

    The LIT-LAND engine (graphics device, scene, loader, animator, ECS
    registry) is not part of the file: every call into it is recorded as an
    event and its outcome (result, or a thrown [std::exception]) is read
    from an oracle of type [Engine]. *)

From Stdlib Require Import ZArith QArith List String Bool Lia.
Import ListNotations.
Open Scope string_scope.
Open Scope Z_scope.

(** ** Values *)

(** Address of an engine object; a [std::unique_ptr<T>] is an [option ptr],
    [None] being the empty pointer. *)
Definition ptr := N.
Definition unique_ptr := option ptr.

(** Modelled from the spec: [litland::ECS::Entity] is declared in
    lit-land/core/ecs.h; the spec calls it an identifier into the registry. *)
Definition Entity := N.

(** [float] expressions are kept as the source writes them: a literal, an
    [int] converted by [static_cast<float>], or a quotient.  Nothing is
    rounded or evaluated. *)
Inductive float32 : Type :=
| FLit (q : Q)
| FOfInt (z : Z)
| FDiv (a b : float32).

Record vec3 : Type := Vec3 { vx : float32; vy : float32; vz : float32 }.

(** [glm::vec3(a)] *)
Definition vec3_splat (a : float32) : vec3 := Vec3 a a a.

Inductive GraphicsAPI : Type := WebGPU.

Inductive Component : Type :=
| Transform (position rotation scale : vec3)
| DirectionalLight (color : vec3) (intensity : float32)
| RenderMesh (model : ptr).

(** ** Calls into the engine *)

Inductive Call : Type :=
| createGraphicsDevice (api : GraphicsAPI)
| Scene_new (device : ptr)
| GltfLoader_new (device : ptr)
| Animator_new
| Registry_new
| Registry_create (r : ptr)
| Registry_emplace (r : ptr) (e : Entity) (c : Component)
| Registry_get_Transform (r : ptr) (e : Entity)
| Scene_setAmbientLight (sc : ptr) (color : vec3) (intensity : float32)
| Scene_setCamera (sc : ptr) (position target up : vec3)
                  (fov aspect near far : float32)
| Scene_update (sc : ptr) (dt : float32)
| Scene_render (sc device : ptr)
| Scene_addEntity (sc : ptr) (e : Entity) (transform : ptr)
| Animator_setAnimationSpeed (a : ptr) (speed : float32)
| Animator_playAnimation (a : ptr) (clip : string) (loop : bool)
| Animator_bindSkeleton (a : ptr) (skeleton : ptr)
| Animator_update (a : ptr) (dt : float32)
| Device_setViewport (d : ptr) (x y w h : Z)
| Device_beginFrame (d : ptr)
| Device_endFrame (d : ptr)
| Device_present (d : ptr)
| Device_getFrameRate (d : ptr)
| Loader_loadFromMemory (l : ptr) (glbBuffer : list Byte.byte) (bufferSize : N)
| Model_hasSkeleton (m : ptr)
| Model_getSkeleton (m : ptr).

(** What the engine answers to a call.  [raises c = Some what] means the
    call throws a [std::exception] whose [what()] is [what]. *)
Record Engine : Type := {
  raises : Call -> option string;
  result_nullable : Call -> option ptr;
  result_object : Call -> ptr;
  result_entity : Call -> Entity;
  result_bool : Call -> bool;
  result_float : Call -> float32
}.

Inductive Severity : Type := Info | Error.

(** What a run leaves behind, in order: console lines ([console.log] is
    [Info], [console.error] is [Error], both without the "[LIT-LAND Avatar]"
    tag), engine calls, and objects destroyed by a [unique_ptr] that lets go
    of them. *)
Inductive Event : Type :=
| Console (sev : Severity) (message : string)
| Extern (c : Call)
| Destroy (p : ptr).

(** ** The global scene state *)

Record SceneState : Type := {
  graphicsDevice : unique_ptr;
  scene : unique_ptr;
  modelLoader : unique_ptr;
  animator : unique_ptr;
  registry : unique_ptr;
  avatarEntity : Entity;
  cameraPosition : vec3;
  cameraTarget : vec3;
  cameraFOV : float32;
  currentAnimationState : string;
  canvasWidth : Z;
  canvasHeight : Z
}.

(** [g_scene] as it is when the module is loaded ([avatarEntity] has no
    initialiser; the object has static storage, hence zero). *)
Definition g_scene : SceneState := {|
  graphicsDevice := None;
  scene := None;
  modelLoader := None;
  animator := None;
  registry := None;
  avatarEntity := 0%N;
  cameraPosition := Vec3 (FLit 0) (FLit 1.7) (FLit 2.5);
  cameraTarget := Vec3 (FLit 0) (FLit 1.5) (FLit 0);
  cameraFOV := FLit 50;
  currentAnimationState := "idle";
  canvasWidth := 1024;
  canvasHeight := 768
|}.

Definition with_graphicsDevice (v : unique_ptr) (s : SceneState) : SceneState :=
  {| graphicsDevice := v; scene := scene s; modelLoader := modelLoader s;
     animator := animator s; registry := registry s;
     avatarEntity := avatarEntity s; cameraPosition := cameraPosition s;
     cameraTarget := cameraTarget s; cameraFOV := cameraFOV s;
     currentAnimationState := currentAnimationState s;
     canvasWidth := canvasWidth s; canvasHeight := canvasHeight s |}.

Definition with_scene (v : unique_ptr) (s : SceneState) : SceneState :=
  {| graphicsDevice := graphicsDevice s; scene := v;
     modelLoader := modelLoader s;
     animator := animator s; registry := registry s;
     avatarEntity := avatarEntity s; cameraPosition := cameraPosition s;
     cameraTarget := cameraTarget s; cameraFOV := cameraFOV s;
     currentAnimationState := currentAnimationState s;
     canvasWidth := canvasWidth s; canvasHeight := canvasHeight s |}.

Definition with_modelLoader (v : unique_ptr) (s : SceneState) : SceneState :=
  {| graphicsDevice := graphicsDevice s; scene := scene s; modelLoader := v;
     animator := animator s; registry := registry s;
     avatarEntity := avatarEntity s; cameraPosition := cameraPosition s;
     cameraTarget := cameraTarget s; cameraFOV := cameraFOV s;
     currentAnimationState := currentAnimationState s;
     canvasWidth := canvasWidth s; canvasHeight := canvasHeight s |}.

Definition with_animator (v : unique_ptr) (s : SceneState) : SceneState :=
  {| graphicsDevice := graphicsDevice s; scene := scene s;
     modelLoader := modelLoader s;
     animator := v; registry := registry s;
     avatarEntity := avatarEntity s; cameraPosition := cameraPosition s;
     cameraTarget := cameraTarget s; cameraFOV := cameraFOV s;
     currentAnimationState := currentAnimationState s;
     canvasWidth := canvasWidth s; canvasHeight := canvasHeight s |}.

Definition with_registry (v : unique_ptr) (s : SceneState) : SceneState :=
  {| graphicsDevice := graphicsDevice s; scene := scene s;
     modelLoader := modelLoader s;
     animator := animator s; registry := v;
     avatarEntity := avatarEntity s; cameraPosition := cameraPosition s;
     cameraTarget := cameraTarget s; cameraFOV := cameraFOV s;
     currentAnimationState := currentAnimationState s;
     canvasWidth := canvasWidth s; canvasHeight := canvasHeight s |}.

Definition with_avatarEntity (v : Entity) (s : SceneState) : SceneState :=
  {| graphicsDevice := graphicsDevice s; scene := scene s;
     modelLoader := modelLoader s;
     animator := animator s; registry := registry s;
     avatarEntity := v; cameraPosition := cameraPosition s;
     cameraTarget := cameraTarget s; cameraFOV := cameraFOV s;
     currentAnimationState := currentAnimationState s;
     canvasWidth := canvasWidth s; canvasHeight := canvasHeight s |}.

Definition with_currentAnimationState (v : string) (s : SceneState)
  : SceneState :=
  {| graphicsDevice := graphicsDevice s; scene := scene s;
     modelLoader := modelLoader s;
     animator := animator s; registry := registry s;
     avatarEntity := avatarEntity s; cameraPosition := cameraPosition s;
     cameraTarget := cameraTarget s; cameraFOV := cameraFOV s;
     currentAnimationState := v;
     canvasWidth := canvasWidth s; canvasHeight := canvasHeight s |}.

Definition with_canvasSize (w h : Z) (s : SceneState) : SceneState :=
  {| graphicsDevice := graphicsDevice s; scene := scene s;
     modelLoader := modelLoader s;
     animator := animator s; registry := registry s;
     avatarEntity := avatarEntity s; cameraPosition := cameraPosition s;
     cameraTarget := cameraTarget s; cameraFOV := cameraFOV s;
     currentAnimationState := currentAnimationState s;
     canvasWidth := w; canvasHeight := h |}.

(** ** Running code: state, events, exceptions, undefined behaviour *)

(** A piece of code either returns, or leaves by a [std::exception] in
    flight (the state changes and events made so far stay), or has
    undefined behaviour (it went through an empty [unique_ptr]). *)
Inductive Outcome (A : Type) : Type :=
| Returned (a : A) (s : SceneState) (evs : list Event)
| Raised (what : string) (s : SceneState) (evs : list Event)
| Undefined.
Arguments Returned {A} a s evs.
Arguments Raised {A} what s evs.
Arguments Undefined {A}.

Definition Exec (A : Type) : Type := Engine -> SceneState -> Outcome A.

Definition ret {A} (a : A) : Exec A := fun _ s => Returned a s [].

Definition bind {A B} (m : Exec A) (k : A -> Exec B) : Exec B :=
  fun eng s =>
    match m eng s with
    | Returned a s1 e1 =>
        match k a eng s1 with
        | Returned b s2 e2 => Returned b s2 (e1 ++ e2)
        | Raised what s2 e2 => Raised what s2 (e1 ++ e2)
        | Undefined => Undefined
        end
    | Raised what s1 e1 => Raised what s1 e1
    | Undefined => Undefined
    end.

Notation "x <- m ;; k" := (bind m (fun x => k))
  (at level 61, m at next level, right associativity).
Notation "m ;; k" := (bind m (fun _ => k))
  (at level 61, right associativity).

Definition get : Exec SceneState := fun _ s => Returned s s [].
Definition modify (f : SceneState -> SceneState) : Exec unit :=
  fun _ s => Returned tt (f s) [].
Definition emit (e : Event) : Exec unit := fun _ s => Returned tt s [e].

(** [throw std::runtime_error(what)] *)
Definition throw {A} (what : string) : Exec A := fun _ s => Raised what s [].

(** [try { body } catch (const std::exception& e) { handler e.what() }] *)
Definition try_catch (body : Exec unit) (handler : string -> Exec unit)
  : Exec unit :=
  fun eng s =>
    match body eng s with
    | Returned a s1 e1 => Returned a s1 e1
    | Raised what s1 e1 =>
        match handler what eng s1 with
        | Returned b s2 e2 => Returned b s2 (e1 ++ e2)
        | Raised what' s2 e2 => Raised what' s2 (e1 ++ e2)
        | Undefined => Undefined
        end
    | Undefined => Undefined
    end.

(** A call into the engine: recorded, then it throws or comes back. *)
Definition extern (c : Call) : Exec unit :=
  fun eng s =>
    match raises eng c with
    | Some what => Raised what s [Extern c]
    | None => Returned tt s [Extern c]
    end.

(** The engine's answer to a call that came back. *)
Definition answer {A} (f : Engine -> Call -> A) (c : Call) : Exec A :=
  fun eng s => Returned (f eng c) s [].

Definition extern_nullable (c : Call) : Exec (option ptr) :=
  extern c ;; answer result_nullable c.
Definition extern_object (c : Call) : Exec ptr :=
  extern c ;; answer result_object c.
Definition extern_entity (c : Call) : Exec Entity :=
  extern c ;; answer result_entity c.
Definition extern_bool (c : Call) : Exec bool :=
  extern c ;; answer result_bool c.
Definition extern_float (c : Call) : Exec float32 :=
  extern c ;; answer result_float c.

(** [h->...] on a [unique_ptr]: undefined when [h] is empty. *)
Definition deref (h : unique_ptr) : Exec ptr :=
  match h with
  | Some p => ret p
  | None => fun _ _ => Undefined
  end.

(** The object a [unique_ptr] gives up, by [reset()] or by being assigned
    over, is destroyed; an empty one destroys nothing. *)
Definition release (h : unique_ptr) : Exec unit :=
  match h with
  | Some p => emit (Destroy p)
  | None => ret tt
  end.

Definition logInfo (message : string) : Exec unit :=
  emit (Console Info message).
Definition logError (message : string) : Exec unit :=
  emit (Console Error message).

(** ** The animation set-ups *)

Definition setupIdleAnimation : Exec unit :=
  s <- get ;;
  match animator s with
  | None => ret tt
  | Some a =>
      extern (Animator_setAnimationSpeed a (FLit 0.3)) ;;
      extern (Animator_playAnimation a "Armature|ArmatureAction" true)
  end.

Definition setupListeningAnimation : Exec unit :=
  s <- get ;;
  match animator s with
  | None => ret tt
  | Some a =>
      extern (Animator_setAnimationSpeed a (FLit 0.5)) ;;
      extern (Animator_playAnimation a "HeadTilt" false)
  end.

Definition setupSpeakingAnimation : Exec unit :=
  s <- get ;;
  match animator s with
  | None => ret tt
  | Some a =>
      extern (Animator_setAnimationSpeed a (FLit 1)) ;;
      extern (Animator_playAnimation a "Talking" true)
  end.

(** ** Access to the handles of [g_scene] *)

(** [g_scene.h->...] *)
Definition via (h : SceneState -> unique_ptr) : Exec ptr :=
  s <- get ;; deref (h s).

(** [g_scene.h = v] on a handle: the object held before is destroyed. *)
Definition assign (h : SceneState -> unique_ptr)
  (upd : unique_ptr -> SceneState -> SceneState) (v : unique_ptr) : Exec unit :=
  s <- get ;; modify (upd v) ;; release (h s).

(** [g_scene.h.reset()] *)
Definition reset (h : SceneState -> unique_ptr)
  (upd : unique_ptr -> SceneState -> SceneState) : Exec unit :=
  assign h upd None.

(** ** The entry points *)

(** [static_cast<float>(w) / static_cast<float>(h)] *)
Definition aspect (w h : Z) : float32 := FDiv (FOfInt w) (FOfInt h).

Definition up_axis : vec3 := Vec3 (FLit 0) (FLit 1) (FLit 0).
Definition near_plane : float32 := FLit 0.1.
Definition far_plane : float32 := FLit 100.

Definition initScene_body : Exec unit :=
  logInfo "Initializing avatar scene..." ;;
  dev <- extern_nullable (createGraphicsDevice WebGPU) ;;
  assign graphicsDevice with_graphicsDevice dev ;;
  s <- get ;;
  match graphicsDevice s with
  | None => throw "Failed to create graphics device"
  | Some d =>
      sc <- extern_object (Scene_new d) ;;
      assign scene with_scene (Some sc) ;;
      ld <- extern_object (GltfLoader_new d) ;;
      assign modelLoader with_modelLoader (Some ld) ;;
      an <- extern_object Animator_new ;;
      assign animator with_animator (Some an) ;;
      rg <- extern_object Registry_new ;;
      assign registry with_registry (Some rg) ;;
      r <- via registry ;;
      light <- extern_entity (Registry_create r) ;;
      r <- via registry ;;
      extern (Registry_emplace r light
                (Transform (Vec3 (FLit 2) (FLit 3) (FLit 2))
                           (vec3_splat (FLit 0)) (vec3_splat (FLit 1)))) ;;
      r <- via registry ;;
      extern (Registry_emplace r light
                (DirectionalLight (Vec3 (FLit 1) (FLit 1) (FLit 1)) (FLit 1))) ;;
      sc <- via scene ;;
      extern (Scene_setAmbientLight sc
                (Vec3 (FLit 0.5) (FLit 0.5) (FLit 0.5)) (FLit 0.5)) ;;
      sc <- via scene ;;
      s <- get ;;
      extern (Scene_setCamera sc (cameraPosition s) (cameraTarget s) up_axis
                (cameraFOV s) (aspect (canvasWidth s) (canvasHeight s))
                near_plane far_plane) ;;
      setupIdleAnimation ;;
      logInfo "Avatar scene initialized successfully"
  end.

Definition initScene : Exec unit :=
  try_catch initScene_body
    (fun what => logError ("Failed to initialize scene: " ++ what)).

Definition loadAvatarModel_body (glbBuffer : list Byte.byte) (bufferSize : N)
  : Exec unit :=
  logInfo "Loading avatar model..." ;;
  s <- get ;;
  match modelLoader s with
  | None => throw "Model loader not initialized"
  | Some l =>
      model <- extern_nullable (Loader_loadFromMemory l glbBuffer bufferSize) ;;
      match model with
      | None => throw "Failed to parse GLTF model"
      | Some m =>
          r <- via registry ;;
          e <- extern_entity (Registry_create r) ;;
          modify (with_avatarEntity e) ;;
          r <- via registry ;;
          s <- get ;;
          extern (Registry_emplace r (avatarEntity s)
                    (Transform (Vec3 (FLit 0) (FLit 0) (FLit 0))
                               (vec3_splat (FLit 0)) (vec3_splat (FLit 1)))) ;;
          r <- via registry ;;
          s <- get ;;
          extern (Registry_emplace r (avatarEntity s) (RenderMesh m)) ;;
          skinned <- extern_bool (Model_hasSkeleton m) ;;
          (if skinned : bool then
             a <- via animator ;;
             sk <- extern_object (Model_getSkeleton m) ;;
             extern (Animator_bindSkeleton a sk)
           else ret tt) ;;
          sc <- via scene ;;
          r <- via registry ;;
          s <- get ;;
          t <- extern_object (Registry_get_Transform r (avatarEntity s)) ;;
          extern (Scene_addEntity sc (avatarEntity s) t) ;;
          logInfo "Avatar model loaded successfully"
      end
  end.

Definition loadAvatarModel (glbBuffer : list Byte.byte) (bufferSize : N)
  : Exec unit :=
  try_catch (loadAvatarModel_body glbBuffer bufferSize)
    (fun what => logError ("Failed to load avatar model: " ++ what)).

Definition setAnimationState_body (stateName : string) : Exec unit :=
  modify (with_currentAnimationState stateName) ;;
  s <- get ;;
  (if currentAnimationState s =? "idle" then setupIdleAnimation
   else if currentAnimationState s =? "listening" then setupListeningAnimation
   else if currentAnimationState s =? "speaking" then setupSpeakingAnimation
   else logError ("Unknown animation state: " ++ stateName))%string ;;
  logInfo ("Animation state changed to: " ++ stateName).

Definition setAnimationState (stateName : string) : Exec unit :=
  try_catch (setAnimationState_body stateName)
    (fun what => logError ("Error setting animation state: " ++ what)).

(** [1.0f / 60.0f] *)
Definition frame_dt : float32 := FDiv (FLit 1) (FLit 60).

Definition updateFrame_body : Exec unit :=
  s <- get ;;
  match animator s with
  | Some a => extern (Animator_update a frame_dt)
  | None => ret tt
  end ;;
  s <- get ;;
  match scene s with
  | Some sc => extern (Scene_update sc frame_dt)
  | None => ret tt
  end ;;
  s <- get ;;
  match graphicsDevice s, scene s with
  | Some d, Some sc =>
      extern (Device_beginFrame d) ;;
      extern (Scene_render sc d) ;;
      extern (Device_endFrame d) ;;
      extern (Device_present d)
  | _, _ => ret tt
  end.

Definition updateFrame : Exec unit :=
  try_catch updateFrame_body
    (fun what => logError ("Error in update frame: " ++ what)).

Definition setCanvasSize_body (width height : Z) : Exec unit :=
  if (width <=? 0) || (height <=? 0) then ret tt
  else
    modify (with_canvasSize width height) ;;
    s <- get ;;
    match graphicsDevice s with
    | Some d => extern (Device_setViewport d 0 0 width height)
    | None => ret tt
    end ;;
    s <- get ;;
    match scene s with
    | Some sc =>
        extern (Scene_setCamera sc (cameraPosition s) (cameraTarget s) up_axis
                  (cameraFOV s) (aspect width height) near_plane far_plane)
    | None => ret tt
    end.

Definition setCanvasSize (width height : Z) : Exec unit :=
  try_catch (setCanvasSize_body width height)
    (fun what => logError ("Error setting canvas size: " ++ what)).

Definition getAnimationState : Exec string :=
  s <- get ;; ret (currentAnimationState s).

Definition getFrameRate : Exec float32 :=
  s <- get ;;
  match graphicsDevice s with
  | Some d => extern_float (Device_getFrameRate d)
  | None => ret (FLit 0)
  end.

Definition cleanup_body : Exec unit :=
  logInfo "Cleaning up avatar scene..." ;;
  reset registry with_registry ;;
  reset animator with_animator ;;
  reset modelLoader with_modelLoader ;;
  reset scene with_scene ;;
  reset graphicsDevice with_graphicsDevice ;;
  logInfo "Cleanup complete".

Definition cleanup : Exec unit :=
  try_catch cleanup_body
    (fun what => logError ("Error during cleanup: " ++ what)).

(** ** The host *)

(** What the host can ask for.  The two [int] arguments of [setCanvasSize]
    are only compared with zero, stored and converted to [float], so they
    are taken in [Z] without a bound. *)
Inductive HostCall : Type :=
| call_initScene
| call_loadAvatarModel (glbBuffer : list Byte.byte) (bufferSize : N)
| call_setAnimationState (stateName : string)
| call_updateFrame
| call_setCanvasSize (width height : Z)
| call_getAnimationState
| call_getFrameRate
| call_cleanup.

Inductive HostValue : Type :=
| void
| c_str (s : string)
| float_value (f : float32).

Definition dispatch (c : HostCall) : Exec HostValue :=
  match c with
  | call_initScene => initScene ;; ret void
  | call_loadAvatarModel b n => loadAvatarModel b n ;; ret void
  | call_setAnimationState n => setAnimationState n ;; ret void
  | call_updateFrame => updateFrame ;; ret void
  | call_setCanvasSize w h => setCanvasSize w h ;; ret void
  | call_getAnimationState => n <- getAnimationState ;; ret (c_str n)
  | call_getFrameRate => f <- getFrameRate ;; ret (float_value f)
  | call_cleanup => cleanup ;; ret void
  end.

(** The entry points whose body sits in a [try]/[catch]. *)
Definition wrapped (c : HostCall) : bool :=
  match c with
  | call_getAnimationState | call_getFrameRate => false
  | _ => true
  end.

(** The states the host can bring about from module load: it calls entry
    points one after the other, the engine answering as it likes each
    time.  A call that ends in undefined behaviour leads nowhere; one that
    lets an exception out leaves the state as the exception found it. *)
Inductive reachable : SceneState -> Prop :=
| reachable_load : reachable g_scene
| reachable_return (s s' : SceneState) (c : HostCall) (eng : Engine)
    (v : HostValue) (evs : list Event) :
    reachable s -> dispatch c eng s = Returned v s' evs -> reachable s'
| reachable_raise (s s' : SceneState) (c : HostCall) (eng : Engine)
    (what : string) (evs : list Event) :
    reachable s -> dispatch c eng s = Raised what s' evs -> reachable s'.

(** ** Reading the events of a run *)

Definition is_error (e : Event) : bool :=
  match e with Console Error _ => true | _ => false end.
Definition is_extern (e : Event) : bool :=
  match e with Extern _ => true | _ => false end.
Definition is_destroy (e : Event) : bool :=
  match e with Destroy _ => true | _ => false end.

Definition errors (evs : list Event) : list Event := filter is_error evs.
Definition engine_calls (evs : list Event) : list Event := filter is_extern evs.
Definition releases (evs : list Event) : list Event := filter is_destroy evs.

(** An engine that never throws, always has a device to give (at address
    [1]) and parses every buffer (model at address [7], no skeleton). *)
Definition willing : Engine := {|
  raises := fun _ => None;
  result_nullable := fun c =>
    match c with createGraphicsDevice _ => Some 1%N | _ => Some 7%N end;
  result_object := fun c =>
    match c with
    | Scene_new _ => 2%N
    | GltfLoader_new _ => 3%N
    | Animator_new => 4%N
    | Registry_new => 5%N
    | _ => 9%N
    end;
  result_entity := fun _ => 11%N;
  result_bool := fun _ => false;
  result_float := fun _ => FLit 60
|}.

(** The names [setAnimationState] has a branch for. *)
Definition known_states : list string := ["idle"; "listening"; "speaking"].

(** The body between [try] and [catch] of a wrapped entry point, and the
    text its handler puts before [e.what()]. *)
Definition entry_body (c : HostCall) : Exec unit :=
  match c with
  | call_initScene => initScene_body
  | call_loadAvatarModel b n => loadAvatarModel_body b n
  | call_setAnimationState n => setAnimationState_body n
  | call_updateFrame => updateFrame_body
  | call_setCanvasSize w h => setCanvasSize_body w h
  | call_cleanup => cleanup_body
  | call_getAnimationState | call_getFrameRate => ret tt
  end.

Definition catch_prefix (c : HostCall) : string :=
  match c with
  | call_initScene => "Failed to initialize scene: "
  | call_loadAvatarModel _ _ => "Failed to load avatar model: "
  | call_setAnimationState _ => "Error setting animation state: "
  | call_updateFrame => "Error in update frame: "
  | call_setCanvasSize _ _ => "Error setting canvas size: "
  | call_cleanup => "Error during cleanup: "
  | call_getAnimationState | call_getFrameRate => ""
  end.

(** [g_scene] with the five handles empty and the other fields of [s]. *)
Definition released (s : SceneState) : SceneState :=
  with_graphicsDevice None
    (with_scene None
       (with_modelLoader None (with_animator None (with_registry None s)))).

Definition all_absent (s : SceneState) : Prop :=
  graphicsDevice s = None /\ scene s = None /\ modelLoader s = None /\
  animator s = None /\ registry s = None.

(** The handles a wrapped entry point goes through are there, or the entry
    point asks before it goes through them: [loadAvatarModel] asks for the
    model loader only. *)
Definition handles_suffice (c : HostCall) (s : SceneState) : Prop :=
  match c with
  | call_loadAvatarModel _ _ =>
      modelLoader s = None \/
      (exists r a sc,
         registry s = Some r /\ animator s = Some a /\ scene s = Some sc)
  | _ => True
  end.

(** Where a run leaves the state, if it leaves one. *)
Definition outcome_state {A} (P : SceneState -> Prop) (o : Outcome A) : Prop :=
  match o with
  | Returned _ s _ | Raised _ s _ => P s
  | Undefined => True
  end.

(** [m] keeps [P]: from a state with [P] it ends in a state with [P],
    whether it returns or throws. *)
Definition preserves {A} (P : SceneState -> Prop) (m : Exec A) : Prop :=
  forall eng s, P s -> outcome_state P (m eng s).

Definition canvas_positive (s : SceneState) : Prop :=
  0 < canvasWidth s /\ 0 < canvasHeight s.

(** What a handle lets go of when it is reset. *)
Definition held (h : unique_ptr) : list Event :=
  match h with
  | Some p => [Destroy p]
  | None => []
  end.

(** The events of [cleanup], from the handles [s] holds. *)
Definition cleanup_events (s : SceneState) : list Event :=
  [Console Info "Cleaning up avatar scene..."] ++
  held (registry s) ++ held (animator s) ++ held (modelLoader s) ++
  held (scene s) ++ held (graphicsDevice s) ++
  [Console Info "Cleanup complete"].

(** The work [updateFrame] does, sorted by kind. *)
Definition is_animator_update (e : Event) : bool :=
  match e with Extern (Animator_update _ _) => true | _ => false end.
Definition is_scene_update (e : Event) : bool :=
  match e with Extern (Scene_update _ _) => true | _ => false end.
Definition is_render_cycle (e : Event) : bool :=
  match e with
  | Extern (Device_beginFrame _) | Extern (Scene_render _ _)
  | Extern (Device_endFrame _) | Extern (Device_present _) => true
  | _ => false
  end.
Definition is_setCamera (e : Event) : bool :=
  match e with Extern (Scene_setCamera _ _ _ _ _ _ _ _) => true | _ => false end.

(** An engine like [willing], except that the [Animator] constructor
    throws. *)
Definition no_animator : Engine := {|
  raises := fun c =>
    match c with Animator_new => Some "std::bad_alloc" | _ => None end;
  result_nullable := result_nullable willing;
  result_object := result_object willing;
  result_entity := result_entity willing;
  result_bool := result_bool willing;
  result_float := result_float willing
|}.


(** An engine like [willing], except that the frame-rate query throws. *)
Definition no_frame_rate : Engine := {|
  raises := fun c =>
    match c with Device_getFrameRate _ => Some "device lost" | _ => None end;
  result_nullable := result_nullable willing;
  result_object := result_object willing;
  result_entity := result_entity willing;
  result_bool := result_bool willing;
  result_float := result_float willing
|}.

(** [g_scene] after an [initScene] that went through. *)
Definition g_scene_ready : SceneState :=
  with_registry (Some 5%N)
    (with_animator (Some 4%N)
       (with_modelLoader (Some 3%N)
          (with_scene (Some 2%N) (with_graphicsDevice (Some 1%N) g_scene)))).

(** [g_scene] after an [initScene] that stopped at the [Animator]. *)
Definition g_scene_partial : SceneState :=
  with_modelLoader (Some 3%N)
    (with_scene (Some 2%N) (with_graphicsDevice (Some 1%N) g_scene)).

(** ** Module load *)

(** [main] runs once, when the module is loaded. *)
Definition main : Exec Z :=
  logInfo "LIT-LAND Avatar Engine starting..." ;; ret 0.

(** ** Further readings of states, engines and events *)

Definition present (h : unique_ptr) : Prop := h <> None.

(** The four handles [initScene] fills after the device, each standing on
    the one filled before it. *)
Definition handle_chain (s : SceneState) : Prop :=
  (present (registry s) -> present (animator s)) /\
  (present (animator s) -> present (modelLoader s)) /\
  (present (modelLoader s) -> present (scene s)).

(** [p] is the object one of the five handles of [s] holds. *)
Definition holds (s : SceneState) (p : ptr) : Prop :=
  graphicsDevice s = Some p \/ scene s = Some p \/ modelLoader s = Some p \/
  animator s = Some p \/ registry s = Some p.

(** The camera fields are the ones [g_scene] starts with. *)
Definition camera_default (s : SceneState) : Prop :=
  cameraPosition s = Vec3 (FLit 0) (FLit 1.7) (FLit 2.5) /\
  cameraTarget s = Vec3 (FLit 0) (FLit 1.5) (FLit 0) /\
  cameraFOV s = FLit 50.

Definition is_bindSkeleton (e : Event) : bool :=
  match e with Extern (Animator_bindSkeleton _ _) => true | _ => false end.

(** The events of a run, none when it is undefined. *)
Definition events_of {A} (o : Outcome A) : list Event :=
  match o with
  | Returned _ _ evs | Raised _ _ evs => evs
  | Undefined => []
  end.

(** [m] only makes events with [Q], whether it returns or throws. *)
Definition emits {A} (Q : Event -> Prop) (m : Exec A) : Prop :=
  forall eng s, Forall Q (events_of (m eng s)).

(** * Properties *)

(** ** Tactics for running the code *)

Ltac exec_unfold :=
  cbv [dispatch initScene initScene_body loadAvatarModel loadAvatarModel_body
       setAnimationState setAnimationState_body updateFrame updateFrame_body
       setCanvasSize setCanvasSize_body getAnimationState getFrameRate
       cleanup cleanup_body setupIdleAnimation setupListeningAnimation
       setupSpeakingAnimation via assign reset release deref
       extern_nullable extern_object extern_entity extern_bool extern_float
       try_catch bind ret get modify emit throw extern answer
       logInfo logError].

(** Look at both answers of the engine to every call on the way. *)
Ltac engine_cases :=
  repeat match goal with
    | |- context [raises ?e ?c] => destruct (raises e c) eqn:?; cbn
    end.

(** ** Names outside the closed set *)

Lemma unknown_name_branches (name : string) :
  ~ In name known_states ->
  (name =? "idle")%string = false /\
  (name =? "listening")%string = false /\
  (name =? "speaking")%string = false.
Proof.
  intros H. unfold known_states in H. simpl in H.
  repeat split; apply String.eqb_neq; intros ->; apply H; auto.
Qed.

(** C1, as the code has it: for a name outside idle, listening and
    speaking, [setAnimationState] stores the name all the same, touches
    nothing else, makes no engine call, and writes one error line and then
    the usual info line; [getAnimationState] then returns that name. *)
Theorem setAnimationState_unknown_stored (eng eng' : Engine) (s : SceneState)
  (name : string) :
  ~ In name known_states ->
  setAnimationState name eng s =
    Returned tt (with_currentAnimationState name s)
      [Console Error ("Unknown animation state: " ++ name);
       Console Info ("Animation state changed to: " ++ name)] /\
  getAnimationState eng' (with_currentAnimationState name s) =
    Returned name (with_currentAnimationState name s) [].
Proof.
  intros H. destruct (unknown_name_branches name H) as (Hi & Hl & Hs).
  split; [| reflexivity].
  exec_unfold. cbn [currentAnimationState with_currentAnimationState].
  rewrite Hi, Hl, Hs. reflexivity.
Qed.

Lemma setAnimationState_unknown_stored_witness :
  setAnimationState "bogus" willing g_scene =
    Returned tt (with_currentAnimationState "bogus" g_scene)
      [Console Error "Unknown animation state: bogus";
       Console Info "Animation state changed to: bogus"] /\
  getAnimationState willing (with_currentAnimationState "bogus" g_scene) =
    Returned "bogus" (with_currentAnimationState "bogus" g_scene) [].
Proof.
  apply (setAnimationState_unknown_stored willing willing g_scene "bogus").
  unfold known_states. simpl. intros [H | [H | [H | []]]]; discriminate H.
Defined.

(** C1 fails on the code: "bogus" is outside the closed set, the state is
    "idle" before the call, and [getAnimationState] returns "bogus" after
    it. *)
Lemma setAnimationState_bogus_overwrites :
  ~ In "bogus" known_states /\
  getAnimationState willing g_scene = Returned "idle" g_scene [] /\
  exists s' evs,
    setAnimationState "bogus" willing g_scene = Returned tt s' evs /\
    getAnimationState willing s' = Returned "bogus" s' [] /\
    currentAnimationState s' <> currentAnimationState g_scene.
Proof.
  split.
  - unfold known_states. simpl. intros [H | [H | [H | []]]]; discriminate H.
  - split; [reflexivity |].
    eexists. eexists. split; [reflexivity |].
    split; [reflexivity | discriminate].
Qed.

(** ** Names of the closed set *)

(** C2: for idle, listening and speaking, [setAnimationState] returns
    (whatever the animator does, if there is one) and [getAnimationState]
    then returns exactly the name that was set. *)
Theorem setAnimationState_then_get (eng eng' : Engine) (s : SceneState)
  (name : string) :
  In name known_states ->
  exists s' evs,
    setAnimationState name eng s = Returned tt s' evs /\
    s' = with_currentAnimationState name s /\
    getAnimationState eng' s' = Returned name s' [].
Proof.
  intros H. unfold known_states in H. simpl in H.
  destruct H as [<- | [<- | [<- | []]]]; exec_unfold; cbn.
  all: destruct (animator s); cbn; engine_cases.
  all: eexists; eexists; split; [reflexivity | split; reflexivity].
Qed.

Lemma setAnimationState_then_get_witness :
  exists s' evs,
    setAnimationState "speaking" willing g_scene_ready = Returned tt s' evs /\
    s' = with_currentAnimationState "speaking" g_scene_ready /\
    getAnimationState willing s' = Returned "speaking" s' [].
Proof.
  apply (setAnimationState_then_get willing willing g_scene_ready "speaking").
  unfold known_states. simpl. auto.
Defined.

(** ** Loading a model *)

(** With no model loader the request is turned down: the failure is
    logged and nothing else happens. *)
Lemma loadAvatarModel_without_loader (eng : Engine) (s : SceneState)
  (glbBuffer : list Byte.byte) (bufferSize : N) :
  modelLoader s = None ->
  loadAvatarModel glbBuffer bufferSize eng s =
    Returned tt s
      [Console Info "Loading avatar model...";
       Console Error "Failed to load avatar model: Model loader not initialized"].
Proof.
  intros H. exec_unfold. rewrite H. reflexivity.
Qed.

(** A buffer the loader cannot parse is turned down as well, whatever the
    other handles are. *)
Lemma loadAvatarModel_unparsed (eng : Engine) (s : SceneState) (l : ptr)
  (glbBuffer : list Byte.byte) (bufferSize : N) :
  modelLoader s = Some l ->
  raises eng (Loader_loadFromMemory l glbBuffer bufferSize) = None ->
  result_nullable eng (Loader_loadFromMemory l glbBuffer bufferSize) = None ->
  loadAvatarModel glbBuffer bufferSize eng s =
    Returned tt s
      [Console Info "Loading avatar model...";
       Extern (Loader_loadFromMemory l glbBuffer bufferSize);
       Console Error "Failed to load avatar model: Failed to parse GLTF model"].
Proof.
  intros Hl Hr Hn. exec_unfold. rewrite Hl, Hr. cbn. rewrite Hn. reflexivity.
Qed.

Lemma g_scene_partial_reachable : reachable g_scene_partial.
Proof.
  apply (reachable_return g_scene g_scene_partial call_initScene no_animator
           void
           [Console Info "Initializing avatar scene...";
            Extern (createGraphicsDevice WebGPU);
            Extern (Scene_new 1%N);
            Extern (GltfLoader_new 1%N);
            Extern Animator_new;
            Console Error "Failed to initialize scene: std::bad_alloc"]).
  - apply reachable_load.
  - reflexivity.
Qed.

(** C3, where the code departs from it: after an [initScene] that stopped
    at the [Animator] constructor the model loader is there and the
    registry is not; [loadAvatarModel] with a buffer that parses then goes
    through the empty registry pointer instead of failing with a logged
    error. *)
Theorem loadAvatarModel_registry_unchecked :
  reachable g_scene_partial /\
  modelLoader g_scene_partial = Some 3%N /\
  registry g_scene_partial = None /\
  loadAvatarModel [] 0 willing g_scene_partial = Undefined.
Proof.
  split; [exact g_scene_partial_reachable |].
  repeat split; reflexivity.
Qed.

(** ** Shutting down *)

Lemma cleanup_run (eng : Engine) (s : SceneState) :
  cleanup eng s = Returned tt (released s) (cleanup_events s).
Proof.
  destruct s as [d sc l a r e cp ct cf st w h].
  destruct d, sc, l, a, r; reflexivity.
Qed.

Lemma released_released (s : SceneState) : released (released s) = released s.
Proof. reflexivity. Qed.

Lemma released_all_absent (s : SceneState) : all_absent (released s).
Proof. repeat split. Qed.

(** C7: a second [cleanup] ends in the state the first one left, destroys
    nothing, calls nothing and logs no error (only its two info lines);
    resetting an empty handle does nothing at all. *)
Theorem cleanup_idempotent (eng1 eng2 : Engine) (s : SceneState) :
  exists s1 evs1 evs2,
    cleanup eng1 s = Returned tt s1 evs1 /\
    cleanup eng2 s1 = Returned tt s1 evs2 /\
    evs2 = [Console Info "Cleaning up avatar scene...";
            Console Info "Cleanup complete"] /\
    releases evs2 = [] /\ engine_calls evs2 = [] /\ errors evs2 = [] /\
    release None eng2 s1 = Returned tt s1 [] /\
    reset registry with_registry eng2 s1 = Returned tt s1 [] /\
    reset animator with_animator eng2 s1 = Returned tt s1 [] /\
    reset modelLoader with_modelLoader eng2 s1 = Returned tt s1 [] /\
    reset scene with_scene eng2 s1 = Returned tt s1 [] /\
    reset graphicsDevice with_graphicsDevice eng2 s1 = Returned tt s1 [].
Proof.
  exists (released s), (cleanup_events s),
    (cleanup_events (released s)).
  split; [apply cleanup_run |].
  split; [rewrite cleanup_run, released_released; reflexivity |].
  repeat split.
Qed.

(** C10: [cleanup] empties the five handles, destroying what they held
    in the order registry, animator, model loader, scene, device, and
    leaves every other field as it was; [getAnimationState] afterwards
    returns the name stored before. *)
Theorem cleanup_frame (eng eng' : Engine) (s : SceneState) :
  exists s',
    cleanup eng s = Returned tt s' (cleanup_events s) /\
    all_absent s' /\
    currentAnimationState s' = currentAnimationState s /\
    avatarEntity s' = avatarEntity s /\
    cameraPosition s' = cameraPosition s /\
    cameraTarget s' = cameraTarget s /\
    cameraFOV s' = cameraFOV s /\
    canvasWidth s' = canvasWidth s /\
    canvasHeight s' = canvasHeight s /\
    engine_calls (cleanup_events s) = [] /\
    getAnimationState eng' s' = Returned (currentAnimationState s) s' [].
Proof.
  exists (released s).
  split; [apply cleanup_run |].
  split; [apply released_all_absent |].
  repeat (split; [reflexivity |]).
  split; [| reflexivity].
  unfold cleanup_events.
  destruct (registry s), (animator s), (modelLoader s), (scene s),
    (graphicsDevice s); reflexivity.
Qed.

(** ** Resizing *)

Lemma valid_size_test (w h : Z) :
  0 < w -> 0 < h -> (w <=? 0) || (h <=? 0) = false.
Proof.
  intros Hw Hh. apply orb_false_iff. split; apply Z.leb_gt; assumption.
Qed.

Lemma invalid_size_test (w h : Z) :
  w <= 0 \/ h <= 0 -> (w <=? 0) || (h <=? 0) = true.
Proof.
  intros H. apply orb_true_iff.
  destruct H as [H | H]; [left | right]; apply Z.leb_le; exact H.
Qed.




(** ** Frames *)

(** C6: [updateFrame] always returns and leaves the state alone.  With no
    animator it makes no animator update, with no scene no scene update and
    no render cycle, with no device no render cycle; with neither animator
    nor scene (as before any [initScene]) it does nothing at all.  An error
    line only ever comes from an engine call that was made and threw, never
    from a handle being absent. *)
Theorem updateFrame_skips_absent (eng : Engine) (s : SceneState) :
  exists evs,
    updateFrame eng s = Returned tt s evs /\
    (animator s = None -> filter is_animator_update evs = []) /\
    (scene s = None ->
       filter is_scene_update evs = [] /\ filter is_render_cycle evs = []) /\
    (graphicsDevice s = None -> filter is_render_cycle evs = []) /\
    (animator s = None -> scene s = None -> evs = []) /\
    (errors evs = [] \/
     exists c what, In (Extern c) evs /\ raises eng c = Some what) /\
    updateFrame eng g_scene = Returned tt g_scene [].
Proof.
  exec_unfold.
  destruct s as [gd gsc l ga r ent cp ct cf st cw ch].
  destruct ga as [a |]; destruct gsc as [sc |]; destruct gd as [d |]; cbn.
  all: repeat match goal with
         | |- context [raises ?e ?c] =>
             let H := fresh "Hraise" in destruct (raises e c) eqn:H; cbn
         end.
  all: eexists; split; [reflexivity |].
  all: repeat (split; [try discriminate; try (intros; reflexivity);
                       try (intros; split; reflexivity) |]).
  all: try reflexivity.
  all: try (left; reflexivity).
  all: right.
  all: match goal with
       | H : raises _ ?c = Some ?w |- _ =>
           exists c, w; split; [cbn; tauto | exact H]
       end.
Qed.

Lemma updateFrame_skips_absent_witness :
  updateFrame willing g_scene = Returned tt g_scene [].
Proof.
  destruct (updateFrame_skips_absent willing g_scene)
    as (evs & Hrun & _ & _ & _ & Hnone & _).
  rewrite Hrun. f_equal. apply Hnone; reflexivity.
Defined.

(** ** Resizing before the scene exists *)

(** [initScene] always comes back to the host. *)
Lemma initScene_returns (eng : Engine) (s : SceneState) :
  exists s' evs, initScene eng s = Returned tt s' evs.
Proof.
  exec_unfold. destruct s as [gd gsc l ga r ent cp ct cf st cw ch]. cbn.
  destruct (raises eng (createGraphicsDevice WebGPU)); cbn;
    [eexists; eexists; reflexivity |].
  destruct (result_nullable eng (createGraphicsDevice WebGPU)) as [d |];
    destruct gd; cbn; [| | eexists; eexists; reflexivity ..].
  all: engine_cases; try (eexists; eexists; reflexivity).
  all: destruct gsc; cbn; engine_cases; try (eexists; eexists; reflexivity).
  all: destruct l; cbn; engine_cases; try (eexists; eexists; reflexivity).
  all: destruct ga; cbn; engine_cases; try (eexists; eexists; reflexivity).
  all: destruct r; cbn; engine_cases; eexists; eexists; reflexivity.
Qed.

(** C9: with all handles absent, a resize to a positive width and height
    makes no call and stores the two numbers; an [initScene] after it that
    logs no error has a scene and sets the camera exactly once, with the
    quotient of the stored width and height as aspect ratio. *)
Theorem setCanvasSize_before_initScene (eng1 eng2 : Engine) (s s2 : SceneState)
  (w h : Z) (evs : list Event) :
  all_absent s -> 0 < w -> 0 < h ->
  initScene eng2 (with_canvasSize w h s) = Returned tt s2 evs ->
  errors evs = [] ->
  setCanvasSize w h eng1 s = Returned tt (with_canvasSize w h s) [] /\
  canvasWidth (with_canvasSize w h s) = w /\
  canvasHeight (with_canvasSize w h s) = h /\
  canvasWidth s2 = w /\ canvasHeight s2 = h /\
  exists sc,
    scene s2 = Some sc /\
    filter is_setCamera evs =
      [Extern (Scene_setCamera sc (cameraPosition s) (cameraTarget s)
                 (Vec3 (FLit 0) (FLit 1) (FLit 0)) (cameraFOV s)
                 (FDiv (FOfInt w) (FOfInt h)) (FLit 0.1) (FLit 100))].
Proof.
  intros Habs Hw Hh.
  destruct s as [gd gsc l ga r ent cp ct cf st cw ch].
  destruct Habs as (Hd & Hsc & Hl & Ha & Hr). cbn in Hd, Hsc, Hl, Ha, Hr.
  subst gd gsc l ga r.
  exec_unfold. rewrite (valid_size_test w h Hw Hh). cbn.
  destruct (raises eng2 (createGraphicsDevice WebGPU)); cbn;
    [intros Hrun; injection Hrun as <- <-; discriminate |].
  destruct (result_nullable eng2 (createGraphicsDevice WebGPU)) as [d |]; cbn;
    [| intros Hrun; injection Hrun as <- <-; discriminate].
  engine_cases.
  all: intros Hrun; injection Hrun as <- <-; cbn; intros Herr;
    try discriminate Herr.
  repeat (split; [reflexivity |]).
  eexists. split; reflexivity.
Qed.

Lemma setCanvasSize_before_initScene_witness :
  setCanvasSize 1920 1080 willing g_scene =
    Returned tt (with_canvasSize 1920 1080 g_scene) [] /\
  filter is_setCamera
    (match initScene willing (with_canvasSize 1920 1080 g_scene) with
     | Returned _ _ evs => evs
     | _ => []
     end) =
    [Extern (Scene_setCamera 2%N
               (Vec3 (FLit 0) (FLit 1.7) (FLit 2.5))
               (Vec3 (FLit 0) (FLit 1.5) (FLit 0))
               (Vec3 (FLit 0) (FLit 1) (FLit 0)) (FLit 50)
               (FDiv (FOfInt 1920) (FOfInt 1080)) (FLit 0.1) (FLit 100))].
Proof.
  destruct (setCanvasSize_before_initScene willing willing g_scene
              (with_canvasSize 1920 1080 g_scene_ready)
              1920 1080
              (match initScene willing (with_canvasSize 1920 1080 g_scene) with
               | Returned _ _ evs => evs
               | _ => []
               end))
    as (Hrun & _ & _ & _ & _ & sc & Hsc & Hcam).
  - repeat split.
  - lia.
  - lia.
  - reflexivity.
  - reflexivity.
  - split; [exact Hrun |].
    injection Hsc as <-. exact Hcam.
Defined.

(** ** Properties kept by every step *)

Section Preserves.
Variable P : SceneState -> Prop.

Lemma preserves_ret {A} (a : A) : preserves P (ret a).
Proof. intros eng s H. exact H. Qed.

Lemma preserves_get : preserves P get.
Proof. intros eng s H. exact H. Qed.

Lemma preserves_emit (e : Event) : preserves P (emit e).
Proof. intros eng s H. exact H. Qed.

Lemma preserves_throw {A} (what : string) : preserves P (@throw A what).
Proof. intros eng s H. exact H. Qed.

Lemma preserves_undefined {A} :
  preserves P (fun _ _ => @Undefined A).
Proof. intros eng s H. exact I. Qed.

Lemma preserves_answer {A} (f : Engine -> Call -> A) (c : Call) :
  preserves P (answer f c).
Proof. intros eng s H. exact H. Qed.

Lemma preserves_extern (c : Call) : preserves P (extern c).
Proof.
  intros eng s H. unfold extern. destruct (raises eng c); exact H.
Qed.

Lemma preserves_modify (f : SceneState -> SceneState) :
  (forall s, P s -> P (f s)) -> preserves P (modify f).
Proof. intros Hf eng s H. apply Hf, H. Qed.

Lemma preserves_bind {A B} (m : Exec A) (k : A -> Exec B) :
  preserves P m -> (forall a, preserves P (k a)) -> preserves P (bind m k).
Proof.
  intros Hm Hk eng s H. unfold bind.
  specialize (Hm eng s H).
  destruct (m eng s) as [a s1 e1 | what s1 e1 |]; cbn in Hm; [| exact Hm ..].
  specialize (Hk a eng s1 Hm).
  destruct (k a eng s1); exact Hk.
Qed.

Lemma preserves_try_catch (body : Exec unit) (handler : string -> Exec unit) :
  preserves P body -> (forall what, preserves P (handler what)) ->
  preserves P (try_catch body handler).
Proof.
  intros Hb Hh eng s H. unfold try_catch.
  specialize (Hb eng s H).
  destruct (body eng s) as [a s1 e1 | what s1 e1 |]; cbn in Hb;
    [exact Hb | | exact Hb].
  specialize (Hh what eng s1 Hb).
  destruct (handler what eng s1); exact Hh.
Qed.
End Preserves.

Ltac entry_unfold :=
  unfold dispatch, initScene, initScene_body, loadAvatarModel,
    loadAvatarModel_body, setAnimationState, setAnimationState_body,
    updateFrame, updateFrame_body, setCanvasSize, setCanvasSize_body,
    getAnimationState, getFrameRate, cleanup, cleanup_body,
    setupIdleAnimation, setupListeningAnimation, setupSpeakingAnimation,
    reset, assign, via, release, deref, extern_nullable, extern_object,
    extern_entity, extern_bool, extern_float, logInfo, logError.

(** Walk through the code, one construct at a time; [keep] settles the
    assignments. *)
Ltac walk keep :=
  repeat match goal with
    | |- preserves _ (bind _ _) => apply preserves_bind; [| intros ?]
    | |- preserves _ (try_catch _ _) => apply preserves_try_catch; [| intros ?]
    | |- preserves _ (ret _) => exact (preserves_ret _ _)
    | |- preserves _ get => exact (preserves_get _)
    | |- preserves _ (emit _) => exact (preserves_emit _ _)
    | |- preserves _ (throw _) => exact (preserves_throw _ _)
    | |- preserves _ (fun _ _ => Undefined) => exact (preserves_undefined _)
    | |- preserves _ (answer _ _) => exact (preserves_answer _ _ _)
    | |- preserves _ (extern _) => exact (preserves_extern _ _)
    | |- preserves _ (modify _) => apply preserves_modify; keep
    | |- preserves _ (match ?x with _ => _ end) => destruct x
    end.

Lemma dispatch_keeps_canvas_positive (c : HostCall) :
  preserves canvas_positive (dispatch c).
Proof.
  destruct c as [| b n | name | | w h | | |]; entry_unfold.
  5: {
    apply preserves_bind; [| intros ?; apply preserves_ret].
    apply preserves_try_catch; [| intros ?; apply preserves_emit].
    destruct ((w <=? 0) || (h <=? 0)) eqn:Hsize; [apply preserves_ret |].
    apply orb_false_iff in Hsize. destruct Hsize as [Hw Hh].
    apply Z.leb_gt in Hw, Hh.
    walk ltac:(intros ? _; split; assumption).
  }
  all: walk ltac:(intros ? Hkeep; exact Hkeep).
Qed.

Lemma reachable_canvas_positive (s : SceneState) :
  reachable s -> canvas_positive s.
Proof.
  induction 1 as [| s s' c eng v evs _ IH Hrun | s s' c eng what evs _ IH Hrun].
  - split; reflexivity.
  - pose proof (dispatch_keeps_canvas_positive c eng s IH) as Hk.
    rewrite Hrun in Hk. exact Hk.
  - pose proof (dispatch_keeps_canvas_positive c eng s IH) as Hk.
    rewrite Hrun in Hk. exact Hk.
Qed.

(** C4: a resize with a width or a height that is not positive returns at
    once: the state, stored width and height included, is the one before,
    and no engine call, log line or other event is made.  Hence the stored
    width and height are positive in every state the host can reach. *)
Theorem setCanvasSize_rejects_nonpositive :
  (forall (eng : Engine) (s : SceneState) (w h : Z),
     w <= 0 \/ h <= 0 -> setCanvasSize w h eng s = Returned tt s []) /\
  (forall s : SceneState,
     reachable s -> 0 < canvasWidth s /\ 0 < canvasHeight s).
Proof.
  split.
  - intros eng s w h H. exec_unfold.
    rewrite (invalid_size_test w h H). reflexivity.
  - exact reachable_canvas_positive.
Qed.

Lemma setCanvasSize_rejects_nonpositive_witness :
  setCanvasSize 0 600 willing g_scene_partial =
    Returned tt g_scene_partial [] /\
  0 < canvasWidth g_scene_partial /\ 0 < canvasHeight g_scene_partial.
Proof.
  destruct setCanvasSize_rejects_nonpositive as [Hnoop Hinv].
  split.
  - apply Hnoop. left. lia.
  - apply Hinv. exact g_scene_partial_reachable.
Defined.

(** ** The boundary with the host *)

(** Look also at what the engine hands back where the code branches on
    it. *)
Ltac answer_cases :=
  repeat match goal with
    | |- context [raises ?e ?c] => destruct (raises e c) eqn:?; cbn
    | |- context [match result_nullable ?e ?c with _ => _ end] =>
        destruct (result_nullable e c) eqn:?; cbn
    | |- context [if result_bool ?e ?c then _ else _] =>
        destruct (result_bool e c) eqn:?; cbn
    end.

Ltac returned := eexists; eexists; reflexivity.

Lemma loadAvatarModel_returns (eng : Engine) (s : SceneState)
  (glbBuffer : list Byte.byte) (bufferSize : N) :
  handles_suffice (call_loadAvatarModel glbBuffer bufferSize) s ->
  exists s' evs, loadAvatarModel glbBuffer bufferSize eng s = Returned tt s' evs.
Proof.
  intros [Hl | (r & a & sc & Hr & Ha & Hsc)].
  - rewrite (loadAvatarModel_without_loader eng s _ _ Hl). returned.
  - destruct s as [gd gsc l ga gr ent cp ct cf st cw ch].
    cbn in Hr, Ha, Hsc. subst gr ga gsc.
    exec_unfold. destruct l as [l |]; cbn; [| returned].
    answer_cases; returned.
Qed.

Lemma setAnimationState_returns (eng : Engine) (s : SceneState)
  (stateName : string) :
  exists s' evs, setAnimationState stateName eng s = Returned tt s' evs.
Proof.
  exec_unfold. destruct s as [gd gsc l ga gr ent cp ct cf st cw ch].
  cbn [currentAnimationState with_currentAnimationState animator].
  destruct (stateName =? "idle")%string;
    [| destruct (stateName =? "listening")%string;
       [| destruct (stateName =? "speaking")%string]].
  all: destruct ga; cbn [animator with_currentAnimationState]; engine_cases;
    returned.
Qed.

Lemma updateFrame_returns (eng : Engine) (s : SceneState) :
  exists s' evs, updateFrame eng s = Returned tt s' evs.
Proof.
  exec_unfold. destruct s as [gd gsc l ga gr ent cp ct cf st cw ch].
  destruct ga, gsc, gd; cbn; engine_cases; returned.
Qed.

Lemma setCanvasSize_returns (eng : Engine) (s : SceneState) (w h : Z) :
  exists s' evs, setCanvasSize w h eng s = Returned tt s' evs.
Proof.
  exec_unfold. destruct s as [gd gsc l ga gr ent cp ct cf st cw ch].
  destruct ((w <=? 0) || (h <=? 0)); [returned |].
  destruct gd, gsc; cbn; engine_cases; returned.
Qed.

Lemma wrapped_returns (c : HostCall) (eng : Engine) (s : SceneState) :
  wrapped c = true -> handles_suffice c s ->
  exists s' evs, dispatch c eng s = Returned void s' evs.
Proof.
  intros Hw Hs.
  assert (Hseq : forall m : Exec unit,
             (exists s' evs, m eng s = Returned tt s' evs) ->
             exists s' evs, (m ;; ret void) eng s = Returned void s' evs).
  { intros m (s' & evs & Hm). unfold bind, ret. rewrite Hm. returned. }
  destruct c as [| b n | name | | w h | | |]; try discriminate Hw;
    unfold dispatch; apply Hseq.
  - apply initScene_returns.
  - apply loadAvatarModel_returns, Hs.
  - apply setAnimationState_returns.
  - apply updateFrame_returns.
  - apply setCanvasSize_returns.
  - exists (released s), (cleanup_events s). apply cleanup_run.
Qed.

(** What the handler of a wrapped entry point makes of its body. *)
Lemma dispatch_catches (c : HostCall) (eng : Engine) (s : SceneState) :
  wrapped c = true ->
  dispatch c eng s =
    match entry_body c eng s with
    | Returned _ s1 e1 => Returned void s1 e1
    | Raised what s1 e1 =>
        Returned void s1 (e1 ++ [Console Error (catch_prefix c ++ what)])
    | Undefined => Undefined
    end.
Proof.
  intros Hw.
  destruct c as [| b n | name | | w h | | |]; try discriminate Hw;
    unfold dispatch, initScene, loadAvatarModel, setAnimationState,
      updateFrame, setCanvasSize, cleanup, entry_body, catch_prefix,
      try_catch, bind, ret, logError, emit.
  all: match goal with
       | |- context [match ?body ?e ?s0 with _ => _ end] =>
           destruct (body e s0) as [[] s1 e1 | what s1 e1 |]
       end.
  all: rewrite ?app_nil_r; reflexivity.
Qed.

Lemma g_scene_ready_reachable : reachable g_scene_ready.
Proof.
  eapply (reachable_return g_scene g_scene_ready call_initScene willing).
  - apply reachable_load.
  - reflexivity.
Qed.

(** Each of the six entry points whose body sits in a [try]/[catch]
    returns normally to the host whenever its run is defined, whatever the
    engine throws: when the body ends by an exception, thrown by the body
    itself or by an engine call, the state is the one the exception found
    and the last event is one error line, the entry point's own text
    followed by [what()]; when the body returns nothing is added.  The run
    is defined for every state and engine, except that [loadAvatarModel]
    needs the model loader absent or registry, animator and scene in
    place. *)
Theorem wrapped_entry_points_catch (c : HostCall) (eng : Engine)
  (s : SceneState) :
  wrapped c = true ->
  (handles_suffice c s -> dispatch c eng s <> Undefined) /\
  (dispatch c eng s <> Undefined ->
   exists s' evs,
     dispatch c eng s = Returned void s' evs /\
     match entry_body c eng s with
     | Returned _ s1 e1 => s' = s1 /\ evs = e1
     | Raised what s1 e1 =>
         s' = s1 /\
         evs = (e1 ++ [Console Error (catch_prefix c ++ what)])%list
     | Undefined => False
     end).
Proof.
  intros Hw. split.
  - intros Hs.
    destruct (wrapped_returns c eng s Hw Hs) as (s' & evs & Hrun).
    rewrite Hrun. discriminate.
  - intros Hdef. rewrite (dispatch_catches c eng s Hw) in Hdef |- *.
    destruct (entry_body c eng s) as [a s1 e1 | what s1 e1 |].
    + eexists. eexists. split; [reflexivity | split; reflexivity].
    + eexists. eexists. split; [reflexivity | split; reflexivity].
    + contradiction Hdef. reflexivity.
Qed.

Lemma wrapped_entry_points_catch_witness :
  dispatch (call_loadAvatarModel [] 0)
    {| raises := fun c =>
         match c with
         | Loader_loadFromMemory _ _ _ => Some "truncated buffer"
         | _ => None
         end;
       result_nullable := result_nullable willing;
       result_object := result_object willing;
       result_entity := result_entity willing;
       result_bool := result_bool willing;
       result_float := result_float willing |} g_scene_partial =
    Returned void g_scene_partial
      [Console Info "Loading avatar model...";
       Extern (Loader_loadFromMemory 3%N [] 0);
       Console Error "Failed to load avatar model: truncated buffer"].
Proof.
  destruct (wrapped_entry_points_catch (call_loadAvatarModel [] 0)
              {| raises := fun c =>
                   match c with
                   | Loader_loadFromMemory _ _ _ => Some "truncated buffer"
                   | _ => None
                   end;
                 result_nullable := result_nullable willing;
                 result_object := result_object willing;
                 result_entity := result_entity willing;
                 result_bool := result_bool willing;
                 result_float := result_float willing |}
              g_scene_partial eq_refl) as [_ Hcatch].
  destruct Hcatch as (s' & evs & Hrun & Hbody).
  - intros Hundef. vm_compute in Hundef. discriminate Hundef.
  - cbn in Hbody. destruct Hbody as [-> ->]. exact Hrun.
Defined.

(** C8, where the code departs from it: [getFrameRate] makes its engine
    call outside any [try]/[catch], unlike every other entry point; in the
    state an [initScene] that went through leaves, with a frame-rate query
    that throws, nothing is logged and the exception goes out to the
    host. *)
Lemma getFrameRate_lets_exception_out :
  reachable g_scene_ready /\
  graphicsDevice g_scene_ready = Some 1%N /\
  raises no_frame_rate (Device_getFrameRate 1%N) = Some "device lost" /\
  dispatch call_getFrameRate no_frame_rate g_scene_ready =
    Raised "device lost" g_scene_ready [Extern (Device_getFrameRate 1%N)].
Proof.
  split; [exact g_scene_ready_reachable |].
  repeat split; reflexivity.
Qed.

(** * Further properties *)

(** ** What no entry point touches *)

Lemma dispatch_keeps_camera (c : HostCall) :
  preserves camera_default (dispatch c).
Proof.
  destruct c as [| b n | name | | w h | | |]; entry_unfold.
  all: walk ltac:(intros ? Hkeep; exact Hkeep).
Qed.

(** No entry point assigns to the camera fields: in every state the host
    can reach, position, target and field of view are the initial
    (0, 1.7, 2.5), (0, 1.5, 0) and 50. *)
Theorem reachable_camera_default (s : SceneState) :
  reachable s -> camera_default s.
Proof.
  induction 1 as [| s s' c eng v evs _ IH Hrun | s s' c eng what evs _ IH Hrun].
  - repeat split.
  - pose proof (dispatch_keeps_camera c eng s IH) as Hk.
    rewrite Hrun in Hk. exact Hk.
  - pose proof (dispatch_keeps_camera c eng s IH) as Hk.
    rewrite Hrun in Hk. exact Hk.
Qed.

Lemma reachable_camera_default_witness : camera_default g_scene_partial.
Proof.
  apply (reachable_camera_default g_scene_partial).
  exact g_scene_partial_reachable.
Defined.

(** ** Running [initScene] over any handles *)

Lemma release_run (h : unique_ptr) (eng : Engine) (s : SceneState) :
  release h eng s = Returned tt s (held h).
Proof. destruct h; reflexivity. Qed.

Ltac init_unfold :=
  cbv [dispatch initScene initScene_body setupIdleAnimation via assign deref
       extern_nullable extern_object extern_entity
       try_catch bind ret get modify emit throw extern answer
       logInfo logError].

(** Follow [initScene] call by call, the engine answering either way. *)
Ltac init_cases :=
  repeat match goal with
    | |- context [raises ?e ?c] => destruct (raises e c) eqn:?; cbn
    | |- context [match result_nullable ?e ?c with _ => _ end] =>
        destruct (result_nullable e c) eqn:?; cbn
    | |- context [release ?h ?e ?s] => rewrite (release_run h e s); cbn
    end.

Lemma initScene_keeps_handle_chain (eng : Engine) (s : SceneState) :
  handle_chain s -> outcome_state handle_chain (initScene eng s).
Proof.
  intros Hs. destruct s as [gd gsc l ga gr ent cp ct cf st cw ch].
  unfold handle_chain, present in Hs. cbn in Hs.
  init_unfold. cbn. init_cases.
  all: unfold handle_chain, present; cbn; intuition congruence.
Qed.

Lemma dispatch_keeps_handle_chain (c : HostCall) :
  preserves handle_chain (dispatch c).
Proof.
  destruct c as [| b n | name | | w h | | |].
  - intros eng s Hs. pose proof (initScene_keeps_handle_chain eng s Hs) as Hk.
    unfold dispatch, bind, ret. destruct (initScene eng s); exact Hk.
  - entry_unfold. walk ltac:(intros ? Hkeep; exact Hkeep).
  - entry_unfold. walk ltac:(intros ? Hkeep; exact Hkeep).
  - entry_unfold. walk ltac:(intros ? Hkeep; exact Hkeep).
  - entry_unfold. walk ltac:(intros ? Hkeep; exact Hkeep).
  - entry_unfold. walk ltac:(intros ? Hkeep; exact Hkeep).
  - entry_unfold. walk ltac:(intros ? Hkeep; exact Hkeep).
  - intros eng s _. unfold dispatch, bind, ret. rewrite cleanup_run.
    unfold handle_chain, present. cbn. intuition congruence.
Qed.

(** ** The order the handles come in *)

Lemma handle_chain_kept (s : SceneState) : reachable s -> handle_chain s.
Proof.
  induction 1 as [| s s' c eng v evs _ IH Hrun | s s' c eng what evs _ IH Hrun].
  - unfold handle_chain, present. cbn. intuition congruence.
  - pose proof (dispatch_keeps_handle_chain c eng s IH) as Hk.
    rewrite Hrun in Hk. exact Hk.
  - pose proof (dispatch_keeps_handle_chain c eng s IH) as Hk.
    rewrite Hrun in Hk. exact Hk.
Qed.

(** In every state the host can reach, a registry comes with an animator,
    an animator with a model loader, and a model loader with a scene,
    however often [initScene] failed half-way or was called again. *)
Theorem reachable_handle_chain (s : SceneState) :
  reachable s ->
  (registry s <> None -> animator s <> None) /\
  (animator s <> None -> modelLoader s <> None) /\
  (modelLoader s <> None -> scene s <> None).
Proof.
  exact (handle_chain_kept s).
Qed.

Lemma reachable_handle_chain_witness :
  (registry g_scene_partial <> None -> animator g_scene_partial <> None) /\
  (animator g_scene_partial <> None -> modelLoader g_scene_partial <> None) /\
  (modelLoader g_scene_partial <> None -> scene g_scene_partial <> None).
Proof.
  apply (reachable_handle_chain g_scene_partial).
  exact g_scene_partial_reachable.
Defined.

(** The device is not part of that order: a second [initScene] that gets
    no device empties the device handle and leaves the scene built on the
    old device in place. *)
Lemma scene_without_device_reachable :
  exists s, reachable s /\ graphicsDevice s = None /\ scene s = Some 2%N.
Proof.
  exists (with_graphicsDevice None g_scene_ready).
  split; [| split; reflexivity].
  eapply (reachable_return g_scene_ready _ call_initScene
            {| raises := fun _ => None;
               result_nullable := fun _ => None;
               result_object := result_object willing;
               result_entity := result_entity willing;
               result_bool := result_bool willing;
               result_float := result_float willing |}).
  - exact g_scene_ready_reachable.
  - reflexivity.
Qed.

(** ** When [loadAvatarModel] is undefined *)

(** From a state the host can reach, [loadAvatarModel] has undefined
    behaviour exactly when there is a model loader and no registry and the
    loader hands back a model; in every other case it returns to the
    host. *)
Theorem loadAvatarModel_undefined_iff (eng : Engine) (s : SceneState)
  (glbBuffer : list Byte.byte) (bufferSize : N) :
  reachable s ->
  (loadAvatarModel glbBuffer bufferSize eng s = Undefined <->
   exists l m,
     modelLoader s = Some l /\ registry s = None /\
     raises eng (Loader_loadFromMemory l glbBuffer bufferSize) = None /\
     result_nullable eng (Loader_loadFromMemory l glbBuffer bufferSize) =
       Some m) /\
  (loadAvatarModel glbBuffer bufferSize eng s <> Undefined ->
   exists s' evs,
     loadAvatarModel glbBuffer bufferSize eng s = Returned tt s' evs).
Proof.
  intros Hreach. pose proof (handle_chain_kept s Hreach) as Hc.
  destruct s as [gd gsc l ga gr ent cp ct cf st cw ch].
  unfold handle_chain, present in Hc. cbn in Hc.
  destruct Hc as (Hra & Hal & Hls).
  exec_unfold. cbn.
  destruct l as [l |]; cbn.
  2: { split; [split; [discriminate | intros (l & m & Hl & _); discriminate]
              | intros _; returned]. }
  destruct (raises eng (Loader_loadFromMemory l glbBuffer bufferSize))
    eqn:Hraise; cbn.
  { split; [split; [discriminate |
                    intros (l' & m & Hl & _ & Hr & _);
                    injection Hl as <-; congruence]
           | intros _; returned]. }
  destruct (result_nullable eng (Loader_loadFromMemory l glbBuffer bufferSize))
    as [m |] eqn:Hres; cbn.
  2: { split; [split; [discriminate |
                       intros (l' & m & Hl & _ & _ & Hr);
                       injection Hl as <-; congruence]
              | intros _; returned]. }
  destruct gr as [r |]; cbn.
  2: { split; [split; [intros _; exists l, m; repeat split; assumption
                      | reflexivity]
              | intros H; contradiction H; reflexivity]. }
  destruct ga as [a |]; [| exfalso; apply Hra; congruence].
  destruct gsc as [sc |]; [| exfalso; apply Hls; congruence].
  cbn. answer_cases.
  all: split; [split; [discriminate |
                       intros (l' & m' & _ & Hr & _); discriminate Hr]
              | intros _; returned].
Qed.

Lemma loadAvatarModel_undefined_iff_witness :
  exists s' evs,
    loadAvatarModel [] 0 willing g_scene_ready = Returned tt s' evs.
Proof.
  destruct (loadAvatarModel_undefined_iff willing g_scene_ready [] 0
              g_scene_ready_reachable) as [_ Hret].
  apply Hret. discriminate.
Defined.

(** ** [initScene] without a device *)

(** When [createGraphicsDevice] throws, [initScene] changes nothing; when
    it returns an empty pointer, the device handle is emptied (the device
    held before, if any, is destroyed), the other handles and fields stay,
    no further engine call is made, and the failure is logged. *)
Theorem initScene_without_device (eng : Engine) (s : SceneState) :
  (forall what,
     raises eng (createGraphicsDevice WebGPU) = Some what ->
     initScene eng s =
       Returned tt s
         [Console Info "Initializing avatar scene...";
          Extern (createGraphicsDevice WebGPU);
          Console Error ("Failed to initialize scene: " ++ what)]) /\
  (raises eng (createGraphicsDevice WebGPU) = None ->
   result_nullable eng (createGraphicsDevice WebGPU) = None ->
   initScene eng s =
     Returned tt (with_graphicsDevice None s)
       ([Console Info "Initializing avatar scene...";
         Extern (createGraphicsDevice WebGPU)] ++
        held (graphicsDevice s) ++
        [Console Error
           "Failed to initialize scene: Failed to create graphics device"])).
Proof.
  split.
  - intros what Hraise. init_unfold. rewrite Hraise. reflexivity.
  - intros Hraise Hnull. init_unfold. rewrite Hraise. cbn. rewrite Hnull.
    cbn. rewrite release_run. cbn. rewrite <- app_assoc. reflexivity.
Qed.

Lemma initScene_without_device_witness :
  initScene
    {| raises := fun _ => None;
       result_nullable := fun _ => None;
       result_object := result_object willing;
       result_entity := result_entity willing;
       result_bool := result_bool willing;
       result_float := result_float willing |} g_scene_ready =
    Returned tt (with_graphicsDevice None g_scene_ready)
      [Console Info "Initializing avatar scene...";
       Extern (createGraphicsDevice WebGPU);
       Destroy 1%N;
       Console Error
         "Failed to initialize scene: Failed to create graphics device"].
Proof.
  apply (initScene_without_device
           {| raises := fun _ => None;
              result_nullable := fun _ => None;
              result_object := result_object willing;
              result_entity := result_entity willing;
              result_bool := result_bool willing;
              result_float := result_float willing |} g_scene_ready);
    reflexivity.
Defined.

(** ** [initScene] that goes through *)

(** An [initScene] that logs no error is a complete one: the five handles
    hold the objects the engine made in this call, every other field
    (the animation state name included) is as before, and the idle clip
    was started on the new animator at speed 0.3, looping. *)
Theorem initScene_silent_is_complete (eng : Engine) (s s' : SceneState)
  (evs : list Event) :
  initScene eng s = Returned tt s' evs -> errors evs = [] ->
  exists d,
    result_nullable eng (createGraphicsDevice WebGPU) = Some d /\
    graphicsDevice s' = Some d /\
    scene s' = Some (result_object eng (Scene_new d)) /\
    modelLoader s' = Some (result_object eng (GltfLoader_new d)) /\
    animator s' = Some (result_object eng Animator_new) /\
    registry s' = Some (result_object eng Registry_new) /\
    released s' = released s /\
    In (Extern (Animator_setAnimationSpeed (result_object eng Animator_new)
                  (FLit 0.3))) evs /\
    In (Extern (Animator_playAnimation (result_object eng Animator_new)
                  "Armature|ArmatureAction" true)) evs.
Proof.
  destruct s as [gd gsc l ga gr ent cp ct cf st cw ch].
  init_unfold. cbn. init_cases.
  all: intros Hrun; injection Hrun as <- <-; intros Herr.
  all: try (unfold errors in Herr; rewrite ?filter_app in Herr; cbn in Herr;
            repeat (apply app_eq_nil in Herr; destruct Herr as [_ Herr]);
            discriminate Herr).
  all: try (destruct gd, gsc, l, ga, gr; discriminate Herr).
  eexists. split; [reflexivity |].
  repeat (split; [reflexivity |]).
  split; destruct gd, gsc, l, ga, gr; cbn;
    repeat (first [left; reflexivity | right]).
Qed.

Lemma initScene_silent_is_complete_witness :
  exists d,
    result_nullable willing (createGraphicsDevice WebGPU) = Some d /\
    graphicsDevice g_scene_ready = Some d /\
    scene g_scene_ready = Some (result_object willing (Scene_new d)) /\
    modelLoader g_scene_ready =
      Some (result_object willing (GltfLoader_new d)) /\
    animator g_scene_ready = Some (result_object willing Animator_new) /\
    registry g_scene_ready = Some (result_object willing Registry_new) /\
    released g_scene_ready = released g_scene.
Proof.
  destruct (initScene_silent_is_complete willing g_scene g_scene_ready
              (match initScene willing g_scene with
               | Returned _ _ evs => evs
               | _ => []
               end) eq_refl eq_refl)
    as (d & Hd & H1 & H2 & H3 & H4 & H5 & H6 & _).
  exists d. repeat (split; [assumption |]). assumption.
Defined.

(** An [initScene] that logs no error, called on handles that hold
    objects, destroys each of them, in the order device, scene, model
    loader, animator, registry: the old device goes first, before the old
    scene and the old loader that were built on it. *)
Theorem initScene_again_destroys_old (eng : Engine) (s s' : SceneState)
  (evs : list Event) :
  initScene eng s = Returned tt s' evs -> errors evs = [] ->
  releases evs =
    (held (graphicsDevice s) ++ held (scene s) ++ held (modelLoader s) ++
     held (animator s) ++ held (registry s))%list.
Proof.
  destruct s as [gd gsc l ga gr ent cp ct cf st cw ch].
  init_unfold. cbn. init_cases.
  all: intros Hrun; injection Hrun as <- <-; intros Herr.
  all: destruct gd, gsc, l, ga, gr; try discriminate Herr; reflexivity.
Qed.

Lemma initScene_again_destroys_old_witness :
  releases
    (match initScene willing g_scene_ready with
     | Returned _ _ evs => evs
     | _ => []
     end) =
    [Destroy 1%N; Destroy 2%N; Destroy 3%N; Destroy 4%N; Destroy 5%N].
Proof.
  apply (initScene_again_destroys_old willing g_scene_ready g_scene_ready);
    reflexivity.
Defined.

(** Whatever the engine does, [initScene] changes the five handles only:
    the animation state name, the avatar entity, the camera and the canvas
    size are as before.  In particular it does not set the name back to
    idle although it starts the idle clip. *)
Theorem initScene_frame (eng : Engine) (s : SceneState) :
  exists s' evs,
    initScene eng s = Returned tt s' evs /\ released s' = released s.
Proof.
  destruct (initScene_returns eng s) as (s' & evs & Hrun).
  exists s', evs. split; [exact Hrun |].
  assert (Hk : preserves (fun x => released x = released s) initScene).
  { unfold initScene, initScene_body, setupIdleAnimation, assign, via,
      release, deref, extern_nullable, extern_object, extern_entity,
      logInfo, logError.
    walk ltac:(intros ? Hkeep; exact Hkeep). }
  specialize (Hk eng s eq_refl). rewrite Hrun in Hk. exact Hk.
Qed.

(** ** Properties of every event *)

Section Emits.
Variable Q : Event -> Prop.

Lemma emits_ret {A} (a : A) : emits Q (ret a).
Proof. intros eng s. constructor. Qed.

Lemma emits_get : emits Q get.
Proof. intros eng s. constructor. Qed.

Lemma emits_modify (f : SceneState -> SceneState) : emits Q (modify f).
Proof. intros eng s. constructor. Qed.

Lemma emits_throw {A} (what : string) : emits Q (@throw A what).
Proof. intros eng s. constructor. Qed.

Lemma emits_undefined {A} : emits Q (fun _ _ => @Undefined A).
Proof. intros eng s. constructor. Qed.

Lemma emits_answer {A} (f : Engine -> Call -> A) (c : Call) :
  emits Q (answer f c).
Proof. intros eng s. constructor. Qed.

Lemma emits_emit (e : Event) : Q e -> emits Q (emit e).
Proof. intros He eng s. constructor; [exact He | constructor]. Qed.

Lemma emits_extern (c : Call) : Q (Extern c) -> emits Q (extern c).
Proof.
  intros Hc eng s. unfold extern.
  destruct (raises eng c); (constructor; [exact Hc | constructor]).
Qed.

Lemma emits_bind {A B} (m : Exec A) (k : A -> Exec B) :
  emits Q m -> (forall a, emits Q (k a)) -> emits Q (bind m k).
Proof.
  intros Hm Hk eng s. unfold bind. specialize (Hm eng s).
  destruct (m eng s) as [a s1 e1 | what s1 e1 |]; cbn in Hm |- *;
    [| exact Hm | constructor].
  specialize (Hk a eng s1).
  destruct (k a eng s1); cbn in Hk |- *;
    [apply Forall_app; split; assumption ..| constructor].
Qed.

Lemma emits_try_catch (body : Exec unit) (handler : string -> Exec unit) :
  emits Q body -> (forall what, emits Q (handler what)) ->
  emits Q (try_catch body handler).
Proof.
  intros Hb Hh eng s. unfold try_catch. specialize (Hb eng s).
  destruct (body eng s) as [a s1 e1 | what s1 e1 |]; cbn in Hb |- *;
    [exact Hb | | constructor].
  specialize (Hh what eng s1).
  destruct (handler what eng s1); cbn in Hh |- *;
    [apply Forall_app; split; assumption ..| constructor].
Qed.
End Emits.

(** Walk through the code for a property of its events; [ok] settles
    each event. *)
Ltac trace ok :=
  repeat match goal with
    | |- emits _ (bind _ _) => apply emits_bind; [| intros ?]
    | |- emits _ (try_catch _ _) => apply emits_try_catch; [| intros ?]
    | |- emits _ (ret _) => exact (emits_ret _ _)
    | |- emits _ get => exact (emits_get _)
    | |- emits _ (modify _) => exact (emits_modify _ _)
    | |- emits _ (throw _) => exact (emits_throw _ _)
    | |- emits _ (fun _ _ => Undefined) => exact (emits_undefined _)
    | |- emits _ (answer _ _) => exact (emits_answer _ _ _)
    | |- emits _ (emit _) => apply emits_emit; ok
    | |- emits _ (extern _) => apply emits_extern; ok
    | |- emits _ (match ?x with _ => _ end) => destruct x
    end.

(** ** What is destroyed *)

Lemma in_held (p : ptr) (h : unique_ptr) :
  In (Destroy p) (held h) -> h = Some p.
Proof.
  destruct h as [q |]; cbn; [| contradiction].
  intros [H | []]. injection H as ->. reflexivity.
Qed.

Lemma events_of_seq {A} (m : Exec unit) (a : A) (eng : Engine)
  (s : SceneState) :
  events_of ((m ;; ret a) eng s) = events_of (m eng s).
Proof.
  unfold bind, ret. destruct (m eng s); cbn; rewrite ?app_nil_r; reflexivity.
Qed.

Ltac split_in H :=
  repeat (cbn [In app] in H; rewrite ?in_app_iff in H).

Lemma initScene_destroys_held (eng : Engine) (s : SceneState) (p : ptr) :
  In (Destroy p) (events_of (initScene eng s)) -> holds s p.
Proof.
  destruct s as [gd gsc l ga gr ent cp ct cf st cw ch].
  init_unfold. cbn. init_cases.
  all: cbn [events_of]; intros Hin; split_in Hin; unfold holds; cbn.
  all: repeat match goal with
         | H : _ \/ _ |- _ => destruct H as [H | H]
         | H : Console _ _ = Destroy _ |- _ => discriminate H
         | H : Extern _ = Destroy _ |- _ => discriminate H
         | H : In (Destroy _) (held _) |- _ => apply in_held in H
         | H : False |- _ => contradiction H
         end.
  all: tauto.
Qed.

Lemma quiet_dispatch_destroys_nothing (c : HostCall) :
  c <> call_initScene -> c <> call_cleanup ->
  emits (fun e => is_destroy e = false) (dispatch c).
Proof.
  intros Hi Hc.
  destruct c as [| b n | name | | w h | | |]; try congruence;
    unfold dispatch, loadAvatarModel, loadAvatarModel_body, setAnimationState,
      setAnimationState_body, updateFrame, updateFrame_body, setCanvasSize,
      setCanvasSize_body, getAnimationState, getFrameRate,
      setupIdleAnimation, setupListeningAnimation, setupSpeakingAnimation,
      via, deref, extern_nullable, extern_object, extern_entity, extern_bool,
      extern_float, logInfo, logError.
  all: trace ltac:(reflexivity).
Qed.

(** Only [initScene] and [cleanup] ever destroy an object, and what they
    destroy was held by one of the five handles when the call began. *)
Theorem destroys_only_what_it_holds (c : HostCall) (eng : Engine)
  (s : SceneState) (p : ptr) :
  In (Destroy p) (events_of (dispatch c eng s)) ->
  holds s p /\ (c = call_initScene \/ c = call_cleanup).
Proof.
  intros Hin.
  assert (Hquiet : c <> call_initScene -> c <> call_cleanup -> False).
  { intros Hi Hc.
    pose proof (quiet_dispatch_destroys_nothing c Hi Hc eng s) as Hall.
    rewrite Forall_forall in Hall. specialize (Hall _ Hin). discriminate Hall. }
  destruct c as [| b n | name | | w h | | |];
    try (exfalso; apply Hquiet; discriminate).
  - split; [| left; reflexivity].
    unfold dispatch in Hin. rewrite events_of_seq in Hin.
    exact (initScene_destroys_held eng s p Hin).
  - split; [| right; reflexivity].
    unfold dispatch in Hin. rewrite events_of_seq, cleanup_run in Hin.
    cbn [events_of] in Hin. unfold cleanup_events in Hin. split_in Hin.
    unfold holds.
    repeat match goal with
      | H : _ \/ _ |- _ => destruct H as [H | H]
      | H : Console _ _ = Destroy _ |- _ => discriminate H
      | H : In (Destroy _) (held _) |- _ => apply in_held in H
      | H : False |- _ => contradiction H
      end; tauto.
Qed.

Lemma destroys_only_what_it_holds_witness :
  holds g_scene_ready 5%N /\
  (call_cleanup = call_initScene \/ call_cleanup = call_cleanup).
Proof.
  apply (destroys_only_what_it_holds call_cleanup willing g_scene_ready 5%N).
  cbn. tauto.
Defined.

(** ** [loadAvatarModel] step by step *)

(** Whatever the engine does, [loadAvatarModel] changes at most the avatar
    entity: handles, camera, canvas size and animation state name are as
    before, whether it returns or not. *)
Theorem loadAvatarModel_frame (eng : Engine) (s : SceneState)
  (glbBuffer : list Byte.byte) (bufferSize : N) :
  outcome_state (fun s' => with_avatarEntity (avatarEntity s) s' = s)
    (loadAvatarModel glbBuffer bufferSize eng s).
Proof.
  assert (Hk : preserves
                 (fun s' => with_avatarEntity (avatarEntity s) s' = s)
                 (loadAvatarModel glbBuffer bufferSize)).
  { unfold loadAvatarModel, loadAvatarModel_body, via, deref,
      extern_nullable, extern_object, extern_entity, extern_bool,
      logInfo, logError.
    walk ltac:(intros ? Hkeep; exact Hkeep). }
  apply Hk. destruct s; reflexivity.
Qed.

(** The avatar entity is replaced as soon as the registry has made the new
    one: when attaching the transform to it throws, the failure is logged
    and the new entity stays in [avatarEntity], with no mesh attached and
    not added to the scene. *)
Theorem loadAvatarModel_keeps_new_entity (eng : Engine) (s : SceneState)
  (glbBuffer : list Byte.byte) (bufferSize : N) (l m r : ptr)
  (what : string) :
  modelLoader s = Some l -> registry s = Some r ->
  raises eng (Loader_loadFromMemory l glbBuffer bufferSize) = None ->
  result_nullable eng (Loader_loadFromMemory l glbBuffer bufferSize) =
    Some m ->
  raises eng (Registry_create r) = None ->
  raises eng
    (Registry_emplace r (result_entity eng (Registry_create r))
       (Transform (Vec3 (FLit 0) (FLit 0) (FLit 0))
          (Vec3 (FLit 0) (FLit 0) (FLit 0))
          (Vec3 (FLit 1) (FLit 1) (FLit 1)))) = Some what ->
  loadAvatarModel glbBuffer bufferSize eng s =
    Returned tt
      (with_avatarEntity (result_entity eng (Registry_create r)) s)
      [Console Info "Loading avatar model...";
       Extern (Loader_loadFromMemory l glbBuffer bufferSize);
       Extern (Registry_create r);
       Extern
         (Registry_emplace r (result_entity eng (Registry_create r))
            (Transform (Vec3 (FLit 0) (FLit 0) (FLit 0))
               (Vec3 (FLit 0) (FLit 0) (FLit 0))
               (Vec3 (FLit 1) (FLit 1) (FLit 1))));
       Console Error ("Failed to load avatar model: " ++ what)].
Proof.
  intros Hl Hr Hload Hmodel Hcreate Hemplace.
  destruct s as [gd gsc gl ga gr ent cp ct cf st cw ch].
  cbn in Hl, Hr. subst gl gr.
  exec_unfold. cbn. rewrite Hload. cbn. rewrite Hmodel. cbn.
  rewrite Hcreate. cbn.
  unfold vec3_splat. rewrite Hemplace. reflexivity.
Qed.

Lemma loadAvatarModel_keeps_new_entity_witness :
  avatarEntity g_scene_ready = 0%N /\
  exists evs,
    loadAvatarModel [] 0
      {| raises := fun c =>
           match c with
           | Registry_emplace _ _ _ => Some "out of memory"
           | _ => None
           end;
         result_nullable := result_nullable willing;
         result_object := result_object willing;
         result_entity := result_entity willing;
         result_bool := result_bool willing;
         result_float := result_float willing |} g_scene_ready =
      Returned tt (with_avatarEntity 11%N g_scene_ready) evs.
Proof.
  split; [reflexivity |].
  eexists.
  apply (loadAvatarModel_keeps_new_entity
           {| raises := fun c =>
                match c with
                | Registry_emplace _ _ _ => Some "out of memory"
                | _ => None
                end;
              result_nullable := result_nullable willing;
              result_object := result_object willing;
              result_entity := result_entity willing;
              result_bool := result_bool willing;
              result_float := result_float willing |}
           g_scene_ready [] 0%N 3%N 7%N 5%N "out of memory");
    reflexivity.
Defined.

(** A load that logs no error, with a model loader and a registry in
    place: the avatar entity is the one the registry made, nothing else in
    the state changes, the entity is added to the scene with the transform
    the registry gives for it, and the animator is bound to the model's
    skeleton exactly when the model says it has one. *)
Theorem loadAvatarModel_silent_is_complete (eng : Engine) (s s' : SceneState)
  (glbBuffer : list Byte.byte) (bufferSize : N) (evs : list Event) :
  loadAvatarModel glbBuffer bufferSize eng s = Returned tt s' evs ->
  errors evs = [] ->
  exists l m r a sc,
    modelLoader s = Some l /\ registry s = Some r /\ scene s = Some sc /\
    result_nullable eng (Loader_loadFromMemory l glbBuffer bufferSize) =
      Some m /\
    s' = with_avatarEntity (result_entity eng (Registry_create r)) s /\
    In (Extern (Registry_emplace r (avatarEntity s') (RenderMesh m))) evs /\
    In (Extern
          (Scene_addEntity sc (avatarEntity s')
             (result_object eng (Registry_get_Transform r (avatarEntity s')))))
       evs /\
    (result_bool eng (Model_hasSkeleton m) = true ->
     animator s = Some a /\
     filter is_bindSkeleton evs =
       [Extern (Animator_bindSkeleton a
                  (result_object eng (Model_getSkeleton m)))]) /\
    (result_bool eng (Model_hasSkeleton m) = false ->
     filter is_bindSkeleton evs = []).
Proof.
  destruct s as [gd gsc gl ga gr ent cp ct cf st cw ch].
  exec_unfold. cbn.
  destruct gl as [l |]; cbn;
    [| intros Hrun; injection Hrun as <- <-; discriminate].
  destruct (raises eng (Loader_loadFromMemory l glbBuffer bufferSize)); cbn;
    [intros Hrun; injection Hrun as <- <-; discriminate |].
  destruct (result_nullable eng (Loader_loadFromMemory l glbBuffer bufferSize))
    as [m |] eqn:Hmodel; cbn;
    [| intros Hrun; injection Hrun as <- <-; discriminate].
  destruct gr as [r |]; cbn; [| discriminate].
  destruct (raises eng (Registry_create r)); cbn;
    [intros Hrun; injection Hrun as <- <-; discriminate |].
  engine_cases; try (intros Hrun; injection Hrun as <- <-; discriminate).
  destruct (result_bool eng (Model_hasSkeleton m)) eqn:Hskel; cbn.
  - destruct ga as [a |]; cbn; [| discriminate].
    engine_cases; try (intros Hrun; injection Hrun as <- <-; discriminate).
    destruct gsc as [sc |]; cbn; [| discriminate].
    engine_cases; intros Hrun; injection Hrun as <- <-; try discriminate.
    intros _. exists l, m, r, a, sc.
    repeat (split; [reflexivity || exact Hmodel |]).
    split; [cbn; repeat (first [left; reflexivity | right]) |].
    split; [cbn; repeat (first [left; reflexivity | right]) |].
    split; [intros _; split; reflexivity | intros H; congruence].
  - destruct gsc as [sc |]; cbn; [| discriminate].
    engine_cases; intros Hrun; injection Hrun as <- <-; try discriminate.
    intros _. exists l, m, r, 0%N, sc.
    repeat (split; [reflexivity || exact Hmodel |]).
    split; [cbn; repeat (first [left; reflexivity | right]) |].
    split; [cbn; repeat (first [left; reflexivity | right]) |].
    split; [intros H; congruence | intros _; reflexivity].
Qed.

Lemma loadAvatarModel_silent_is_complete_witness :
  exists l m r,
    modelLoader g_scene_ready = Some l /\ registry g_scene_ready = Some r /\
    result_nullable willing (Loader_loadFromMemory l [] 0) = Some m.
Proof.
  destruct (loadAvatarModel_silent_is_complete willing g_scene_ready
              (with_avatarEntity 11%N g_scene_ready) [] 0
              (match loadAvatarModel [] 0 willing g_scene_ready with
               | Returned _ _ evs => evs
               | _ => []
               end) eq_refl eq_refl)
    as (l & m & r & a & sc & Hl & Hr & _ & Hm & _).
  exists l, m, r. repeat split; assumption.
Defined.

(** ** [setAnimationState] whatever happens *)

(** [setAnimationState] always returns with the requested name stored,
    for any name and whatever the animator does.  Without an animator it
    makes no engine call.  The line "Animation state changed to" is
    logged unless an animator call that was made threw. *)
Theorem setAnimationState_always_stores (eng : Engine) (s : SceneState)
  (stateName : string) :
  exists evs,
    setAnimationState stateName eng s =
      Returned tt (with_currentAnimationState stateName s) evs /\
    (animator s = None -> engine_calls evs = []) /\
    (In (Console Info ("Animation state changed to: " ++ stateName)) evs \/
     exists c what, In (Extern c) evs /\ raises eng c = Some what).
Proof.
  exec_unfold. destruct s as [gd gsc l ga gr ent cp ct cf st cw ch].
  cbn [currentAnimationState with_currentAnimationState animator].
  destruct (stateName =? "idle")%string;
    [| destruct (stateName =? "listening")%string;
       [| destruct (stateName =? "speaking")%string]].
  all: destruct ga as [a |]; cbn [animator with_currentAnimationState].
  all: repeat match goal with
         | |- context [raises ?e ?c] =>
             let H := fresh "Hraise" in destruct (raises e c) eqn:H; cbn
         end.
  all: eexists; split; [reflexivity |].
  all: split; [intros H; try discriminate H; reflexivity |].
  all: try solve [left; cbn; repeat (first [left; reflexivity | right])].
  all: right.
  all: match goal with
       | H : raises _ ?c = Some ?w |- _ =>
           exists c, w; split; [cbn; tauto | exact H]
       end.
Qed.

Lemma setAnimationState_always_stores_witness :
  exists evs,
    setAnimationState "listening" willing g_scene =
      Returned tt (with_currentAnimationState "listening" g_scene) evs /\
    engine_calls evs = [].
Proof.
  destruct (setAnimationState_always_stores willing g_scene "listening")
    as (evs & Hrun & Hnone & _).
  exists evs. split; [exact Hrun | apply Hnone; reflexivity].
Defined.

(** ** One frame *)

(** With animator, scene and device in place and an engine that does not
    throw, a frame is exactly: animator update and scene update by 1/60,
    then begin frame, render the scene on the device, end frame,
    present. *)
Theorem updateFrame_full_cycle (eng : Engine) (s : SceneState) (a sc d : ptr) :
  animator s = Some a -> scene s = Some sc -> graphicsDevice s = Some d ->
  (forall c, raises eng c = None) ->
  updateFrame eng s =
    Returned tt s
      [Extern (Animator_update a (FDiv (FLit 1) (FLit 60)));
       Extern (Scene_update sc (FDiv (FLit 1) (FLit 60)));
       Extern (Device_beginFrame d);
       Extern (Scene_render sc d);
       Extern (Device_endFrame d);
       Extern (Device_present d)].
Proof.
  intros Ha Hsc Hd Hquiet.
  destruct s as [gd gsc l ga gr ent cp ct cf st cw ch].
  cbn in Ha, Hsc, Hd. subst ga gsc gd.
  exec_unfold. cbn. repeat (rewrite Hquiet; cbn). reflexivity.
Qed.

Lemma updateFrame_full_cycle_witness :
  updateFrame willing g_scene_ready =
    Returned tt g_scene_ready
      [Extern (Animator_update 4%N (FDiv (FLit 1) (FLit 60)));
       Extern (Scene_update 2%N (FDiv (FLit 1) (FLit 60)));
       Extern (Device_beginFrame 1%N);
       Extern (Scene_render 2%N 1%N);
       Extern (Device_endFrame 1%N);
       Extern (Device_present 1%N)].
Proof.
  apply (updateFrame_full_cycle willing g_scene_ready 4%N 2%N 1%N);
    reflexivity.
Defined.

(** A frame is presented only when begin frame, render and end frame all
    came back; and when render throws after begin frame, the frame is
    neither ended nor presented. *)
Theorem updateFrame_present_needs_whole_cycle (eng : Engine) (s : SceneState)
  (d : ptr) (evs : list Event) :
  updateFrame eng s = Returned tt s evs ->
  (In (Extern (Device_present d)) evs ->
   exists sc,
     graphicsDevice s = Some d /\ scene s = Some sc /\
     raises eng (Device_beginFrame d) = None /\
     raises eng (Scene_render sc d) = None /\
     raises eng (Device_endFrame d) = None) /\
  (forall sc,
     scene s = Some sc -> raises eng (Scene_render sc d) <> None ->
     ~ In (Extern (Device_endFrame d)) evs /\
     ~ In (Extern (Device_present d)) evs).
Proof.
  destruct s as [gd gsc l ga gr ent cp ct cf st cw ch].
  exec_unfold.
  match goal with |- _ -> ?G => set (Claim := G) end.
  destruct ga as [a |]; destruct gsc as [sc |]; destruct gd as [d0 |]; cbn.
  all: repeat match goal with
         | |- context [raises ?e ?c] =>
             let H := fresh "Hraise" in destruct (raises e c) eqn:H; cbn
         end.
  all: intros Hrun; injection Hrun as <-; subst Claim; cbn [graphicsDevice scene].
  all: split;
    [ intros Hin; cbn in Hin;
      repeat match type of Hin with
        | _ \/ _ => destruct Hin as [Hin | Hin]; try discriminate Hin
        end;
      try contradiction;
      injection Hin as <-; eexists; repeat split;
      first [reflexivity | assumption]
    | intros sc' Hsc' Hthrow; try discriminate Hsc';
      try (injection Hsc' as <-);
      split; intros Hin; cbn in Hin;
      repeat match type of Hin with
        | _ \/ _ => destruct Hin as [Hin | Hin]; try discriminate Hin
        end;
      try contradiction;
      injection Hin as <-; congruence ].
Qed.

Lemma updateFrame_present_needs_whole_cycle_witness :
  exists sc,
    graphicsDevice g_scene_ready = Some 1%N /\
    scene g_scene_ready = Some sc /\
    raises willing (Scene_render sc 1%N) = None.
Proof.
  destruct (updateFrame_present_needs_whole_cycle willing g_scene_ready 1%N
              (match updateFrame willing g_scene_ready with
               | Returned _ _ evs => evs
               | _ => []
               end) eq_refl) as [Hpresent _].
  destruct Hpresent as (sc & Hd & Hsc & _ & Hrender & _).
  - cbn. tauto.
  - exists sc. repeat split; assumption.
Defined.

(** ** A resize the device turns down *)

(** With a device in place a valid resize first tells the device the
    viewport (0, 0, width, height); when that call throws, the new width
    and height are stored all the same, the camera is not set, and the
    failure is logged. *)
Theorem setCanvasSize_viewport_throws (eng : Engine) (s : SceneState)
  (w h : Z) (d : ptr) (what : string) :
  0 < w -> 0 < h -> graphicsDevice s = Some d ->
  raises eng (Device_setViewport d 0 0 w h) = Some what ->
  setCanvasSize w h eng s =
    Returned tt (with_canvasSize w h s)
      [Extern (Device_setViewport d 0 0 w h);
       Console Error ("Error setting canvas size: " ++ what)].
Proof.
  intros Hw Hh Hd Hraise.
  destruct s as [gd gsc l ga gr ent cp ct cf st cw ch].
  cbn in Hd. subst gd.
  exec_unfold. rewrite (valid_size_test w h Hw Hh). cbn.
  rewrite Hraise. reflexivity.
Qed.

Lemma setCanvasSize_viewport_throws_witness :
  setCanvasSize 800 600
    {| raises := fun c =>
         match c with
         | Device_setViewport _ _ _ _ _ => Some "device lost"
         | _ => None
         end;
       result_nullable := result_nullable willing;
       result_object := result_object willing;
       result_entity := result_entity willing;
       result_bool := result_bool willing;
       result_float := result_float willing |} g_scene_ready =
    Returned tt (with_canvasSize 800 600 g_scene_ready)
      [Extern (Device_setViewport 1%N 0 0 800 600);
       Console Error "Error setting canvas size: device lost"].
Proof.
  apply (setCanvasSize_viewport_throws
           {| raises := fun c =>
                match c with
                | Device_setViewport _ _ _ _ _ => Some "device lost"
                | _ => None
                end;
              result_nullable := result_nullable willing;
              result_object := result_object willing;
              result_entity := result_entity willing;
              result_bool := result_bool willing;
              result_float := result_float willing |}
           g_scene_ready 800 600 1%N "device lost");
    first [lia | reflexivity].
Defined.

(** ** The frame rate *)

(** [getFrameRate] never changes the state, whether the query returns or
    throws.  Without a device it asks nobody and returns 0.0, so it
    returns 0.0 after any [cleanup]; with a device it returns what the
    device answers, unless the query throws. *)
Theorem getFrameRate_reads (eng eng' : Engine) (s : SceneState) :
  outcome_state (fun s' => s' = s) (getFrameRate eng s) /\
  (graphicsDevice s = None ->
   getFrameRate eng s = Returned (FLit 0) s []) /\
  (forall d,
     graphicsDevice s = Some d ->
     raises eng (Device_getFrameRate d) = None ->
     getFrameRate eng s =
       Returned (result_float eng (Device_getFrameRate d)) s
         [Extern (Device_getFrameRate d)]) /\
  (exists s1 evs,
     cleanup eng' s = Returned tt s1 evs /\
     getFrameRate eng s1 = Returned (FLit 0) s1 []).
Proof.
  split; [| split; [| split]].
  - exec_unfold. destruct (graphicsDevice s) as [d |]; cbn;
      [destruct (raises eng (Device_getFrameRate d)) |]; reflexivity.
  - intros Hd. exec_unfold. rewrite Hd. reflexivity.
  - intros d Hd Hraise. exec_unfold. rewrite Hd. cbn. rewrite Hraise.
    reflexivity.
  - exists (released s), (cleanup_events s).
    split; [apply cleanup_run | reflexivity].
Qed.

Lemma getFrameRate_reads_witness :
  getFrameRate willing g_scene = Returned (FLit 0) g_scene [] /\
  getFrameRate willing g_scene_ready =
    Returned (FLit 60) g_scene_ready [Extern (Device_getFrameRate 1%N)].
Proof.
  destruct (getFrameRate_reads willing willing g_scene) as (_ & Hnone & _).
  destruct (getFrameRate_reads willing willing g_scene_ready)
    as (_ & _ & Hsome & _).
  split.
  - apply Hnone. reflexivity.
  - apply (Hsome 1%N); reflexivity.
Defined.

(** ** Error lines *)

Lemma body_logs_no_error (c : HostCall) :
  (forall name, c <> call_setAnimationState name) ->
  emits (fun e => is_error e = false) (entry_body c).
Proof.
  intros Hc.
  destruct c as [| b n | name | | w h | | |];
    try (exfalso; apply (Hc name); reflexivity);
    unfold entry_body, initScene_body, loadAvatarModel_body, updateFrame_body,
      setCanvasSize_body, cleanup_body, setupIdleAnimation, reset, assign,
      via, release, deref, extern_nullable, extern_object, extern_entity,
      extern_bool, logInfo.
  all: trace ltac:(reflexivity).
Qed.

Lemma errors_none (evs : list Event) :
  Forall (fun e => is_error e = false) evs -> errors evs = [].
Proof.
  induction 1 as [| e evs He _ IH]; [reflexivity |].
  unfold errors in *. cbn. rewrite He. exact IH.
Qed.

Lemma setAnimationState_one_error (eng : Engine) (s : SceneState)
  (stateName : string) :
  (List.length (errors (events_of (setAnimationState stateName eng s))) <= 1)%nat.
Proof.
  exec_unfold. destruct s as [gd gsc l ga gr ent cp ct cf st cw ch].
  cbn [currentAnimationState with_currentAnimationState animator].
  destruct (stateName =? "idle")%string;
    [| destruct (stateName =? "listening")%string;
       [| destruct (stateName =? "speaking")%string]].
  all: destruct ga; cbn [animator with_currentAnimationState]; engine_cases.
  all: cbn; lia.
Qed.

(** No call of an entry point logs more than one error line, whatever the
    engine does. *)
Theorem at_most_one_error (c : HostCall) (eng : Engine) (s : SceneState) :
  (List.length (errors (events_of (dispatch c eng s))) <= 1)%nat.
Proof.
  destruct (wrapped c) eqn:Hw.
  - destruct c as [| b n | name | | w h | | |]; try discriminate Hw.
    3: { unfold dispatch. rewrite events_of_seq.
         apply setAnimationState_one_error. }
    all: match goal with
         | |- context [dispatch ?c _ _] =>
             rewrite (dispatch_catches c eng s eq_refl);
             pose proof (body_logs_no_error c) as Hbody;
             specialize (Hbody ltac:(intros name; discriminate) eng s);
             destruct (entry_body c eng s) as [a s1 e1 | what s1 e1 |];
             cbn [events_of] in *
         end.
    all: try (rewrite (errors_none _ Hbody); cbn; lia).
    all: try (unfold errors; rewrite filter_app; fold (errors e1);
              rewrite (errors_none _ Hbody); cbn; lia).
    all: cbn; lia.
  - assert (Hq : emits (fun e => is_error e = false) (dispatch c)).
    { destruct c as [| b n | name | | w h | | |]; try discriminate Hw;
        unfold dispatch, getAnimationState, getFrameRate, extern_float.
      all: trace ltac:(reflexivity). }
    rewrite (errors_none _ (Hq eng s)). cbn. lia.
Qed.

(** ** Nothing to talk to *)

(** With all five handles empty (before [initScene], after [cleanup]) no
    entry point other than [initScene] makes an engine call, and none of
    them changes a handle. *)
Theorem absent_handles_no_engine_call (c : HostCall) (eng : Engine)
  (s : SceneState) :
  all_absent s -> c <> call_initScene ->
  engine_calls (events_of (dispatch c eng s)) = [] /\
  outcome_state all_absent (dispatch c eng s).
Proof.
  intros Habs Hc.
  destruct s as [gd gsc l ga gr ent cp ct cf st cw ch].
  destruct Habs as (Hd & Hsc & Hl & Ha & Hr). cbn in Hd, Hsc, Hl, Ha, Hr.
  subst gd gsc l ga gr.
  destruct c as [| b n | name | | w h | | |]; try congruence; exec_unfold.
  - split; [reflexivity | repeat split].
  - cbn [currentAnimationState with_currentAnimationState animator].
    destruct (name =? "idle")%string;
      [| destruct (name =? "listening")%string;
         [| destruct (name =? "speaking")%string]].
    all: split; [reflexivity | repeat split].
  - split; [reflexivity | repeat split].
  - destruct ((w <=? 0) || (h <=? 0)); split;
      first [reflexivity | repeat split].
  - split; [reflexivity | repeat split].
  - split; [reflexivity | repeat split].
  - split; [reflexivity | repeat split].
Qed.

Lemma absent_handles_no_engine_call_witness :
  engine_calls (events_of (dispatch (call_loadAvatarModel [] 0) willing g_scene))
    = [] /\
  outcome_state all_absent (dispatch (call_loadAvatarModel [] 0) willing g_scene).
Proof.
  apply (absent_handles_no_engine_call (call_loadAvatarModel [] 0) willing
           g_scene).
  - repeat split.
  - discriminate.
Defined.
